(** * IPL MCP server: the request dispatcher, its tool handlers and the loader

    A shallow embedding of [src/server/app.py], followed by one of
    [src/scripts/load_data.py].  The Python layer (the
    handlers, [execute_query], [handle_request] and the [main] loop) is
    translated function by function into a small state-and-exception monad;
    the [sqlite3] engine it talks to is an explicit component of the world,
    with a model of the four statements whose meaning the properties below
    depend on. *)

From Stdlib Require Import ZArith QArith Qround Ascii String.
From stdpp Require Import base strings pretty list sorting gmap.

Set Warnings "-register-all,-clear-no-such-hyp".
Open Scope string_scope.
Open Scope list_scope.
Open Scope Z_scope.

(** ** Numbers outside the integers

    Python floats and SQLite REALs are IEEE binary64 numbers.  Their
    arithmetic, rounding and decimal notation are taken as an interface: the
    development holds for every implementation of it. *)

Class Float64 := {
  float : Type;
  (** Python: [x == y], [x == n] and [repr(x)]. *)
  float_eqb : float → float → bool;
  float_eqb_int : float → Z → bool;
  float_repr : float → string;
  (** SQLite: [CAST(n AS FLOAT)], [x / y], [x * y], [ROUND(x, digits)]. *)
  real_of_int : Z → float;
  real_div : float → float → float;
  real_mul : float → float → float;
  real_round : float → Z → float;
  (** SQLite comparisons across storage classes: an INTEGER against a REAL,
      a REAL rendered under TEXT affinity, a TEXT read under NUMERIC
      affinity (when it looks like a number). *)
  int_compare_real : Z → float → comparison;
  real_to_text : float → string;
  text_to_numeric : string → option (Z + float)
}.

(** ** Characters

    A [str] is kept as the bytes of its UTF-8 encoding, a lone surrogate
    (which JSON can escape and Python can hold) as the three bytes that
    scheme gives it.  Which characters [repr] writes as they are depends on
    the Unicode database of the interpreter; it is an interface too. *)

Class Unicode := {
  (** [chr(code).isprintable()] *)
  printable : Z → bool
}.

Section Server.
Context `{Float64} `{Unicode}.

(** ** Python values

    What [json.loads] produces and [json.dumps] consumes.  A [dict] keeps its
    insertion order; its keys are strings and pairwise distinct. *)

Inductive value :=
| VNone
| VBool (b : bool)
| VInt (n : Z)
| VFloat (x : float)
| VStr (s : string)
| VList (xs : list value)
| VDict (items : list (string * value)).

(** [bool(v)], the test of [if v:]. *)
Definition truthy (v : value) : bool :=
  match v with
  | VNone => false
  | VBool b => b
  | VInt n => negb (n =? 0)
  | VFloat x => negb (float_eqb_int x 0)
  | VStr s => negb (String.eqb s "")
  | VList xs => match xs with [] => false | _ => true end
  | VDict items => match items with [] => false | _ => true end
  end.

(** [v is not None]. *)
Definition is_not_None (v : value) : bool :=
  match v with VNone => false | _ => true end.

(** [type(v).__name__]. *)
Definition type_name (v : value) : string :=
  match v with
  | VNone => "NoneType"
  | VBool _ => "bool"
  | VInt _ => "int"
  | VFloat _ => "float"
  | VStr _ => "str"
  | VList _ => "list"
  | VDict _ => "dict"
  end.

(** [v == s] for a string literal [s]: only a [str] equals a [str]. *)
Definition eq_str (v : value) (s : string) : bool :=
  match v with VStr t => String.eqb t s | _ => false end.

(** [v in [s1, s2, ...]] for a list of string literals. *)
Definition in_strs (v : value) (l : list string) : bool :=
  existsb (eq_str v) l.

(** *** [repr] and [str] *)

Definition dquote : ascii := ascii_of_nat 34.
Definition squote : ascii := ascii_of_nat 39.
Definition backslash : ascii := ascii_of_nat 92.

Definition hex_digit (n : nat) : ascii :=
  ascii_of_nat (if (n <? 10)%nat then 48 + n else 87 + n)%nat.

(** [n] in hexadecimal, on [digits] digits. *)
Fixpoint hex (digits : nat) (n : Z) : string :=
  match digits with
  | O => EmptyString
  | S digits' => hex digits' (n / 16) +:+ String (hex_digit (Z.to_nat (n mod 16))) EmptyString
  end.

Fixpoint contains_char (c : ascii) (s : string) : bool :=
  match s with
  | EmptyString => false
  | String d s' => Ascii.eqb c d || contains_char c s'
  end.

(** A byte that continues a character in UTF-8. *)
Definition continuation (c : ascii) : bool :=
  let n := nat_of_ascii c in ((128 <=? n) && (n <? 192))%nat.

(** The characters of a [str], each with the bytes that encode it. *)
Fixpoint characters (s : string) : list string :=
  match s with
  | EmptyString => []
  | String c s' =>
    match s' with
    | String d _ =>
      if continuation d then
        match characters s' with
        | p :: ps => String c p :: ps
        | [] => [String c EmptyString]
        end
      else String c EmptyString :: characters s'
    | EmptyString => [String c EmptyString]
    end
  end.

(** [ord(c)]: the code point the bytes of a character encode. *)
Definition code_point (c : string) : Z :=
  match c with
  | EmptyString => 0
  | String lead rest =>
    let n := Z.of_nat (nat_of_ascii lead) in
    let first :=
      if n <? 128 then n else if n <? 224 then n mod 32 else if n <? 240 then n mod 16
      else n mod 8 in
    fold_left (λ code b, code * 64 + Z.of_nat (nat_of_ascii b) mod 64)
              (list_ascii_of_string rest) first
  end.

(** A lone surrogate. *)
Definition surrogate (c : string) : bool :=
  (55296 <=? code_point c) && (code_point c <=? 57343).

(** What [repr] writes for one character inside the quotes [quote]: the
    escapes of ASCII, the character itself when it is printable, its code
    in hexadecimal otherwise. *)
Definition escape_character (quote : ascii) (c : string) : string :=
  let code := code_point c in
  if code =? Z.of_nat (nat_of_ascii backslash) then String backslash (String backslash EmptyString)
  else if code =? Z.of_nat (nat_of_ascii quote) then String backslash (String quote EmptyString)
  else if code =? 10 then String backslash "n"
  else if code =? 13 then String backslash "r"
  else if code =? 9 then String backslash "t"
  else if (code <? 32) || (code =? 127) then String backslash ("x" +:+ hex 2 code)
  else if code <? 127 then c
  else if printable code then c
  else if code <? 256 then String backslash ("x" +:+ hex 2 code)
  else if code <? 65536 then String backslash ("u" +:+ hex 4 code)
  else String backslash ("U" +:+ hex 8 code).

Definition escape (quote : ascii) (s : string) : string :=
  String.concat "" (map (escape_character quote) (characters s)).

(** [repr(s)]: single quotes, unless the text has one and no double quote. *)
Definition repr_str (s : string) : string :=
  let quote := if contains_char squote s && negb (contains_char dquote s) then dquote else squote in
  String quote (escape quote s) +:+ String quote EmptyString.

Definition join (sep : string) (l : list string) : string :=
  match l with
  | [] => ""
  | s :: l' => fold_left (λ acc t, acc +:+ sep +:+ t) l' s
  end.

Fixpoint py_repr (v : value) : string :=
  match v with
  | VNone => "None"
  | VBool b => if b then "True" else "False"
  | VInt n => pretty n
  | VFloat x => float_repr x
  | VStr s => repr_str s
  | VList xs => "[" +:+ join ", " (map py_repr xs) +:+ "]"
  | VDict items =>
    "{" +:+ join ", " (map (λ kv, repr_str (fst kv) +:+ ": " +:+ py_repr (snd kv)) items) +:+ "}"
  end.

(** [str(v)], what an f-string interpolates. *)
Definition py_str (v : value) : string :=
  match v with VStr s => s | _ => py_repr v end.

(** Hashable values: what may be looked up in a [dict] or stored in a [set]. *)
Definition hashable (v : value) : bool :=
  match v with VList _ | VDict _ => false | _ => true end.

(** [a == b] on hashable values; numbers compare across [bool], [int] and
    [float]. *)
Definition py_eqb (a b : value) : bool :=
  let num (v : value) : option (Z + float) :=
    match v with
    | VBool b => Some (inl (if b then 1 else 0))
    | VInt n => Some (inl n)
    | VFloat x => Some (inr x)
    | _ => None
    end in
  match num a, num b with
  | Some (inl m), Some (inl n) => m =? n
  | Some (inl m), Some (inr y) => float_eqb_int y m
  | Some (inr x), Some (inl n) => float_eqb_int x n
  | Some (inr x), Some (inr y) => float_eqb x y
  | _, _ =>
    match a, b with
    | VNone, VNone => true
    | VStr s, VStr t => String.eqb s t
    | _, _ => false
    end
  end.

(** Lookup in the items of a [dict]. *)
Fixpoint assoc (items : list (string * value)) (k : string) : option value :=
  match items with
  | [] => None
  | (k', v) :: rest => if String.eqb k' k then Some v else assoc rest k
  end.


(** ** Exceptions

    The classes the code tells apart: [except sqlite3.Error] catches the
    [sqlite3] hierarchy only, [except Exception] catches all of them. *)

Inductive exn_class :=
| Sqlite3Error
| AttributeError
| TypeError
| KeyError
| OverflowError
| UnicodeEncodeError
| UnicodeDecodeError
| ValueError
| RecursionError.

Record exn := Exn { exn_kind : exn_class; exn_str : string }.

Definition is_sqlite3_error (e : exn) : bool :=
  match exn_kind e with Sqlite3Error => true | _ => false end.

(** ** Response envelopes

    [handle_request] returns [{"jsonrpc": "2.0", "id": ..., "result": ...}]
    or [{"jsonrpc": "2.0", "id": ..., "error": {"code": ..., "message": ...}}]. *)

(** The [result] member.  The text block of a tool call is
    [json.dumps(result, indent=2)]; it is kept as the value it serialises. *)
Inductive payload :=
| Plain (result : value)
| TextContent (result : value).

Inductive response :=
| Success (id : value) (result : payload)
| Failure (id : value) (code : Z) (message : string).

(** ** SQL statements

    The query texts of the handlers, by the [SELECT] they start with; the
    conjuncts of the [WHERE] clause are kept as the list the handler builds
    ([where_clause] is the text interpolated into the query). *)

Inductive select :=
| TeamsLike      (* teams t LEFT JOIN matches m WHERE t.name LIKE ? OR t.short_name LIKE ? GROUP BY t.id *)
| TeamsAll       (* teams t LEFT JOIN matches m GROUP BY t.id ORDER BY t.name *)
| Players        (* players p LEFT JOIN deliveries d ... GROUP BY p.id ORDER BY total_runs DESC NULLS LAST, p.name *)
| Matches        (* matches m LEFT JOIN innings i1, i2, officials o ... GROUP BY m.id ORDER BY m.date DESC *)
| Deliveries     (* SELECT d.*, m.team1, m.team2 FROM deliveries d JOIN matches m ON m.id = d.match_id ... ORDER BY d.innings, d.over, d.ball *)
| MatchById      (* SELECT * FROM matches WHERE id = ? *)
| Batting        (* SELECT COUNT(d.id) as balls_faced, ..., strike_rate, matches_played FROM deliveries d ... *)
| Bowling        (* SELECT COUNT(d.id) as balls_bowled, ..., economy_rate, matches_bowled FROM deliveries d ... *)
| Officials      (* officials o LEFT JOIN matches m ... ORDER BY m.date DESC, o.role, o.name *)
| Venues.        (* matches m ... GROUP BY m.venue ORDER BY total_matches DESC, m.venue *)

Record statement := Sql { sql_select : select; sql_conditions : list string }.

(** ["WHERE " + " AND ".join(conditions) if conditions else ""] *)
Definition where_clause (conditions : list string) : string :=
  match conditions with
  | [] => ""
  | _ => "WHERE " +:+ join " AND " conditions
  end.

(** ** The world of a request

    What a run of the server can read or write: the database behind
    [sqlite3] (what [cursor.execute] followed by [fetchall] gives for a
    statement and its parameters: rows as [dict]s, or an exception), and the
    two output channels. *)

Definition row : Type := list (string * value).

Inductive outcome :=
| Rows (rows : list row)
| Fault (e : exn).

Record world := World {
  w_engine : statement → list value → outcome;
  w_stderr : list string;
  w_stdout : list response
}.

Inductive result (A : Type) :=
| Return (a : A)
| Raise (e : exn).
Global Arguments Return {A} a.
Global Arguments Raise {A} e.

(** Computations: state passing over the world, with exceptions. *)
Definition M (A : Type) : Type := world → result A * world.

Definition ret {A} (a : A) : M A := λ w, (Return a, w).

Definition raise {A} (e : exn) : M A := λ w, (Raise e, w).

Definition bind {A B} (m : M A) (k : A → M B) : M B :=
  λ w, match m w with
       | (Return a, w') => k a w'
       | (Raise e, w') => (Raise e, w')
       end.

(** [try: body / except <catches> as e: handler e] *)
Definition try_except {A} (body : M A) (catches : exn → bool) (handler : exn → M A) : M A :=
  λ w, match body w with
       | (Raise e, w') => if catches e then handler e w' else (Raise e, w')
       | r => r
       end.

(** [print(line, file=sys.stderr)] and [print(json.dumps(response))]. *)
Definition print_stderr (line : string) : M unit :=
  λ w, (Return tt, World (w_engine w) (w_stderr w ++ [line]) (w_stdout w)).

Definition print_stdout (r : response) : M unit :=
  λ w, (Return tt, World (w_engine w) (w_stderr w) (w_stdout w ++ [r])).

#[global] Instance M_ret : MRet M := @ret.
#[global] Instance M_bind : MBind M := λ A B k m, bind m k.

(** ** [IPLMCPServer] *)

(** [d.get(key, default)]; [d.get(key)] has the default [None]. *)
Definition get (d : value) (key : string) (fallback : value) : M value :=
  match d with
  | VDict items => mret (default fallback (assoc items key))
  | _ => raise (Exn AttributeError ("'" +:+ type_name d +:+ "' object has no attribute 'get'"))
  end.

(** [r[key]] on a row. *)
Definition item (r : row) (key : string) : M value :=
  match assoc r key with
  | Some v => mret v
  | None => raise (Exn KeyError (repr_str key))
  end.

(** [hash(v)], as far as it can fail. *)
Definition hash (v : value) : M unit :=
  if hashable v then mret tt
  else raise (Exn TypeError ("unhashable type: '" +:+ type_name v +:+ "'")).

(** [len(l)] *)
Definition len {A} (l : list A) : value := VInt (Z.of_nat (length l)).

(** [f"%{v}%"] *)
Definition wildcard (v : value) : value := VStr ("%" +:+ py_str v +:+ "%").

(** [cursor.execute(query, params)] then [cursor.fetchall()], each row
    turned into a [dict]. *)
Definition fetchall (query : statement) (params : list value) : M (list row) :=
  λ w, match w_engine w query params with
       | Rows rows => (Return rows, w)
       | Fault e => (Raise e, w)
       end.

Definition execute_query (query : statement) (params : list value) : M (list row) :=
  try_except (fetchall query params) is_sqlite3_error
    (λ e, _ ← print_stderr ("Database error: " +:+ exn_str e); mret []).

(** *** [get_tools] *)

Record property := Property {
  p_type : string;
  p_description : string;
  p_enum : option (list string);
  p_default : option string
}.

Record tool := Tool {
  t_name : string;
  t_description : string;
  t_properties : list (string * property);
  t_required : option (list string)
}.

Definition prop (type description : string) : property :=
  Property type description None None.

Definition get_tools : list tool := [
  Tool "get_team_info" "Get information about IPL teams"
    [("team_name", prop "string" "Name or short name of the team")]
    None;
  Tool "get_player_info" "Get player information and team details"
    [("player_name", prop "string" "Name of the player");
     ("team_name", prop "string" "Filter by team name")]
    None;
  Tool "get_match_details" "Get detailed match information including scores and outcome"
    [("match_id", prop "string" "Specific match ID");
     ("season", prop "integer" "IPL season year");
     ("team_name", prop "string" "Filter by team name");
     ("venue", prop "string" "Filter by venue")]
    None;
  Tool "get_ball_by_ball" "Get ball-by-ball commentary and deliveries for a match"
    [("match_id", prop "string" "Match ID");
     ("innings", prop "integer" "Innings number (1 or 2)");
     ("over_start", prop "integer" "Starting over number");
     ("over_end", prop "integer" "Ending over number")]
    (Some ["match_id"]);
  Tool "get_player_performance" "Get player performance in specific match or overall"
    [("player_name", prop "string" "Player name");
     ("match_id", prop "string" "Specific match ID");
     ("stat_type", Property "string" "Type of stats"
                     (Some ["batting"; "bowling"; "fielding"; "all"]) (Some "all"))]
    (Some ["player_name"]);
  Tool "get_match_officials" "Get match officials information"
    [("match_id", prop "string" "Match ID");
     ("official_name", prop "string" "Official name")]
    None;
  Tool "get_venue_info" "Get information about cricket venues"
    [("venue_name", prop "string" "Name of the venue");
     ("city", prop "string" "Filter by city")]
    None
].

(** The tool descriptors as the [dict]s of the [tools/list] response. *)
Definition property_value (p : property) : value :=
  VDict ([("type", VStr (p_type p)); ("description", VStr (p_description p))]
         ++ from_option (λ e, [("enum", VList (map VStr e))]) [] (p_enum p)
         ++ from_option (λ d, [("default", VStr d)]) [] (p_default p)).

Definition tool_value (t : tool) : value :=
  VDict [("name", VStr (t_name t));
         ("description", VStr (t_description t));
         ("inputSchema",
          VDict ([("type", VStr "object");
                  ("properties", VDict (map (λ kp, (fst kp, property_value (snd kp))) (t_properties t)))]
                 ++ from_option (λ r, [("required", VList (map VStr r))]) [] (t_required t)
                 ++ [("additionalProperties", VBool false)]))].

(** *** The handlers *)

(** The two lists a handler grows side by side, [conditions] and [params]:
    [if test: conditions.append(condition); params.extend(values)]. *)
Definition filters : Type := list string * list value.

Definition append_if (test : bool) (condition : string) (values : list value)
    (f : filters) : filters :=
  if test then (fst f ++ [condition], snd f ++ values) else f.

Definition handle_get_team_info (arguments : value) : M value :=
  team_name ← get arguments "team_name" VNone;
  results ← (if truthy team_name
             then execute_query (Sql TeamsLike []) [wildcard team_name; wildcard team_name]
             else execute_query (Sql TeamsAll []) []);
  mret (VDict [("teams", VList (map VDict results));
               ("total_teams", len results)]).

Definition handle_get_player_info (arguments : value) : M value :=
  player_name ← get arguments "player_name" VNone;
  team_name ← get arguments "team_name" VNone;
  let f := ([], []) in
  let f := append_if (truthy player_name) "p.name LIKE ?" [wildcard player_name] f in
  let f := append_if (truthy team_name) "p.team LIKE ?" [wildcard team_name] f in
  results ← execute_query (Sql Players (fst f)) (snd f);
  mret (VDict [("players", VList (map VDict results));
               ("total_players", len results)]).

Definition handle_get_match_details (arguments : value) : M value :=
  match_id ← get arguments "match_id" VNone;
  season ← get arguments "season" VNone;
  team_name ← get arguments "team_name" VNone;
  venue ← get arguments "venue" VNone;
  let f := ([], []) in
  let f := append_if (truthy match_id) "m.id = ?" [match_id] f in
  let f := append_if (truthy season) "m.season = ?" [season] f in
  let f := append_if (truthy team_name) "(m.team1 LIKE ? OR m.team2 LIKE ?)"
             [wildcard team_name; wildcard team_name] f in
  let f := append_if (truthy venue) "m.venue LIKE ?" [wildcard venue] f in
  results ← execute_query (Sql Matches (fst f)) (snd f);
  mret (VDict [("matches", VList (map VDict results));
               ("total_matches", len results)]).

(** [set.add] of a pair, by Python equality of the components. *)
Definition set_add (x : value * value) (seen : list (value * value)) : list (value * value) :=
  if existsb (λ y, py_eqb (fst x) (fst y) && py_eqb (snd x) (snd y)) seen
  then seen else seen ++ [x].

(** [set((r['innings'], r['over']) for r in results)] *)
Fixpoint overs_set (results : list row) (seen : list (value * value)) : M (list (value * value)) :=
  match results with
  | [] => mret seen
  | r :: rest =>
    innings ← item r "innings";
    over ← item r "over";
    _ ← hash innings;
    _ ← hash over;
    overs_set rest (set_add (innings, over) seen)
  end.

(** The [conditions] and [params] of [handle_get_ball_by_ball]. *)
Definition ball_by_ball_filters (match_id innings over_start over_end : value) : filters :=
  let f := (["d.match_id = ?"], [match_id]) in
  let f := append_if (truthy innings) "d.innings = ?" [innings] f in
  let f := append_if (is_not_None over_start) "d.over >= ?" [over_start] f in
  let f := append_if (is_not_None over_end) "d.over <= ?" [over_end] f in
  f.

Definition handle_get_ball_by_ball (arguments : value) : M value :=
  match_id ← get arguments "match_id" VNone;
  innings ← get arguments "innings" VNone;
  over_start ← get arguments "over_start" VNone;
  over_end ← get arguments "over_end" VNone;
  let f := ball_by_ball_filters match_id innings over_start over_end in
  results ← execute_query (Sql Deliveries (fst f)) (snd f);
  match_info ← execute_query (Sql MatchById []) [match_id];
  overs ← overs_set results [];
  mret (VDict [("match_info", match match_info with r :: _ => VDict r | [] => VNone end);
               ("deliveries", VList (map VDict results));
               ("total_deliveries", len results);
               ("overs_covered", len overs)]).

(** [results[0] if results else {}] *)
Definition first_or_empty (results : list row) : value :=
  match results with r :: _ => VDict r | [] => VDict [] end.

(** [d[key] = v] *)
Fixpoint setitem (items : list (string * value)) (key : string) (v : value) : list (string * value) :=
  match items with
  | [] => [(key, v)]
  | (k, old) :: rest => if String.eqb k key then (k, v) :: rest else (k, old) :: setitem rest key v
  end.

Definition handle_get_player_performance (arguments : value) : M value :=
  player_name ← get arguments "player_name" VNone;
  match_id ← get arguments "match_id" VNone;
  stat_type ← get arguments "stat_type" (VStr "all");
  let performance := [] in
  performance ←
    (if in_strs stat_type ["batting"; "all"] then
       let f := (["d.batter LIKE ?"], [wildcard player_name]) in
       let f := append_if (truthy match_id) "d.match_id = ?" [match_id] f in
       batting_results ← execute_query (Sql Batting (fst f)) (snd f);
       mret (setitem performance "batting" (first_or_empty batting_results))
     else mret performance);
  performance ←
    (if in_strs stat_type ["bowling"; "all"] then
       let f := (["d.bowler LIKE ?"], [wildcard player_name]) in
       let f := append_if (truthy match_id) "d.match_id = ?" [match_id] f in
       bowling_results ← execute_query (Sql Bowling (fst f)) (snd f);
       mret (setitem performance "bowling" (first_or_empty bowling_results))
     else mret performance);
  mret (VDict [("player_name", player_name);
               ("match_id", match_id);
               ("stat_type", stat_type);
               ("performance", VDict performance)]).

Definition handle_get_match_officials (arguments : value) : M value :=
  match_id ← get arguments "match_id" VNone;
  official_name ← get arguments "official_name" VNone;
  let f := ([], []) in
  let f := append_if (truthy match_id) "o.match_id = ?" [match_id] f in
  let f := append_if (truthy official_name) "o.name LIKE ?" [wildcard official_name] f in
  results ← execute_query (Sql Officials (fst f)) (snd f);
  mret (VDict [("officials", VList (map VDict results));
               ("total_officials", len results)]).

Definition handle_get_venue_info (arguments : value) : M value :=
  venue_name ← get arguments "venue_name" VNone;
  city ← get arguments "city" VNone;
  let f := ([], []) in
  let f := append_if (truthy venue_name) "m.venue LIKE ?" [wildcard venue_name] f in
  let f := append_if (truthy city) "m.venue LIKE ?" [wildcard city] f in
  results ← execute_query (Sql Venues (fst f)) (snd f);
  mret (VDict [("venues", VList (map VDict results));
               ("total_venues", len results)]).

(** *** [handle_request] *)

(** The items of the [handlers] dict, in the order written. *)
Definition handler_list : list (string * (value → M value)) := [
  ("get_team_info", handle_get_team_info);
  ("get_player_info", handle_get_player_info);
  ("get_match_details", handle_get_match_details);
  ("get_ball_by_ball", handle_get_ball_by_ball);
  ("get_player_performance", handle_get_player_performance);
  ("get_match_officials", handle_get_match_officials);
  ("get_venue_info", handle_get_venue_info)
].

Definition handlers : gmap string (value → M value) := list_to_map handler_list.

(** The entry of [handlers] under [name], if any: only a [str] equals one of
    its keys. *)
Definition handler_of (name : value) : option (value → M value) :=
  match name with VStr s => handlers !! s | _ => None end.

Definition server_info : value :=
  VDict [("name", VStr "ipl-mcp-server");
         ("version", VStr "1.0.0");
         ("description", VStr "IPL Cricket Statistics MCP Server")].

Definition handle_request (request : value) : M response :=
  method ← get request "method" VNone;
  if eq_str method "initialize" then
    id ← get request "id" VNone;
    mret (Success id (Plain (VDict [
      ("protocolVersion", VStr "2024-11-05");
      ("capabilities", VDict [("tools", VDict []); ("resources", VDict []); ("prompts", VDict [])]);
      ("serverInfo", server_info)])))
  else if eq_str method "tools/list" then
    id ← get request "id" VNone;
    mret (Success id (Plain (VDict [("tools", VList (map tool_value get_tools))])))
  else if eq_str method "tools/call" then
    params ← get request "params" (VDict []);
    name ← get params "name" VNone;
    arguments ← get params "arguments" (VDict []);
    (* [name in handlers] hashes the name first *)
    _ ← hash name;
    match handler_of name with
    | Some handler =>
      try_except
        (result ← handler arguments;
         id ← get request "id" VNone;
         mret (Success id (TextContent result)))
        (λ _, true)
        (λ e, id ← get request "id" VNone;
              mret (Failure id (-32603) ("Internal error: " +:+ exn_str e)))
    | None =>
      id ← get request "id" VNone;
      mret (Failure id (-32601) ("Unknown tool: " +:+ py_str name))
    end
  else if eq_str method "resources/list" then
    id ← get request "id" VNone;
    mret (Success id (Plain (VDict [("resources", VList [])])))
  else if eq_str method "prompts/list" then
    id ← get request "id" VNone;
    mret (Success id (Plain (VDict [("prompts", VList [])])))
  else
    id ← get request "id" VNone;
    mret (Failure id (-32601) ("Unknown method: " +:+ py_str method)).

(** *** [main]

    A line of standard input: empty, not JSON, one on which [input] or
    [json.loads] raises another exception than [EOFError] and
    [json.JSONDecodeError] (a [UnicodeDecodeError] on bytes that are not
    UTF-8, a [RecursionError] on deep nesting, a [ValueError] on an integer
    of more than 4300 digits), or the value [json.loads] decodes it to.  The
    end of the list is the end of input ([EOFError]). *)

Inductive line :=
| EmptyLine
| NotJson
| Undecoded (e : exn)
| Json (request : value).

Fixpoint main (stdin : list line) : M unit :=
  match stdin with
  | [] => mret tt
  | EmptyLine :: _ => mret tt
  | NotJson :: rest =>
    _ ← print_stdout (Failure VNone (-32700) "Parse error");
    main rest
  | Undecoded e :: rest =>
    _ ← print_stdout (Failure VNone (-32603) ("Internal error: " +:+ exn_str e));
    main rest
  | Json request :: rest =>
    _ ← try_except
          (response ← handle_request request;
           print_stdout response)
          (λ _, true)
          (λ e, print_stdout (Failure VNone (-32603) ("Internal error: " +:+ exn_str e)));
    main rest
  end.

(** ** The [sqlite3] engine

    A model of what the database answers: how parameters are bound, how the
    statements over [deliveries] and [matches] are evaluated. *)

Inductive sqlval :=
| Null
| Integer (n : Z)
| Real (x : float)
| Text (s : string).

(** The number of lone surrogates a list of characters starts with. *)
Fixpoint surrogates_run (cs : list string) : Z :=
  match cs with
  | c :: rest => if surrogate c then 1 + surrogates_run rest else 0
  | [] => 0
  end.

(** What encoding a [str] as UTF-8 raises, if anything: the message of the
    [UnicodeEncodeError] for its first run of lone surrogates, with the
    position of the run counted in characters. *)
Fixpoint encode_error (position : Z) (cs : list string) : option string :=
  match cs with
  | [] => None
  | c :: rest =>
    if surrogate c then
      let run := surrogates_run rest in
      Some ("'utf-8' codec can't encode "
            +:+ (if run =? 0
                 then "character '" +:+ String backslash ("u" +:+ hex 4 (code_point c))
                      +:+ "' in position " +:+ pretty position
                 else "characters in position " +:+ pretty position +:+ "-"
                      +:+ pretty (position + run))
            +:+ ": surrogates not allowed")
    else encode_error (position + 1) rest
  end.

(** Binding a Python value to a placeholder ([index] counts from 1).  An
    [int] outside 64 bits raises [OverflowError] and a [str] with a lone
    surrogate [UnicodeEncodeError], which are no [sqlite3.Error]s; a [list]
    or [dict] raises [sqlite3.ProgrammingError].  A NaN is bound as NULL. *)
Definition bind_parameter (index : Z) (v : value) : exn + sqlval :=
  match v with
  | VNone => inr Null
  | VBool b => inr (Integer (if b then 1 else 0))
  | VInt n =>
    if (- 2 ^ 63 <=? n) && (n <? 2 ^ 63) then inr (Integer n)
    else inl (Exn OverflowError "Python int too large to convert to SQLite INTEGER")
  | VFloat x => inr (if float_eqb x x then Real x else Null)
  | VStr s =>
    match encode_error 0 (characters s) with
    | Some message => inl (Exn UnicodeEncodeError message)
    | None => inr (Text s)
    end
  | VList _ | VDict _ =>
    inl (Exn Sqlite3Error ("Error binding parameter " +:+ pretty index +:+ ": type '"
                           +:+ type_name v +:+ "' is not supported"))
  end.

Fixpoint bind_parameters (index : Z) (params : list value) : exn + list sqlval :=
  match params with
  | [] => inr []
  | v :: rest =>
    match bind_parameter index v with
    | inl e => inl e
    | inr p =>
      match bind_parameters (index + 1) rest with
      | inl e => inl e
      | inr ps => inr (p :: ps)
      end
    end
  end.

(** A nullable column value as Python sees it. *)
Definition nullable {A} (f : A → value) (o : option A) : value :=
  from_option f VNone o.

(** Modelled from the spec: the DDL of the tables the server reads is not
    among the sources ([load_data.py] creates an older schema, without
    [deliveries.id], [innings], [batter], [runs_batter] or [wicket_type]).  A
    delivery is "match
    reference, innings number, over/ball position, batter/non-striker/bowler
    identities, runs breakdown, dismissal info"; the columns below are those
    the server's SQL names, with the types [load_data.py] declares for their
    counterparts, and [d_other] holds whatever else [d.*] returns.  An
    integer of a row is one SQLite stores, within 64 bits. *)
Record delivery := Delivery {
  d_id : Z;
  d_match_id : string;
  d_innings : Z;
  d_over : Z;
  d_ball : Z;
  d_batter : string;
  d_bowler : string;
  d_runs_batter : Z;
  d_runs_total : Z;
  d_wicket_type : option string;
  d_other : row
}.

(** Modelled from the spec: a row of [matches] ("identity, date, location,
    teams, toss outcome, result outcome, margin"), its DDL missing as above:
    the columns the two statements name, and the others in [m_other]. *)
Record match_row := Match {
  m_id : string;
  m_team1 : string;
  m_team2 : string;
  m_other : row
}.

Definition delivery_columns (d : delivery) : row :=
  [("id", VInt (d_id d));
   ("match_id", VStr (d_match_id d));
   ("innings", VInt (d_innings d));
   ("over", VInt (d_over d));
   ("ball", VInt (d_ball d));
   ("batter", VStr (d_batter d));
   ("bowler", VStr (d_bowler d));
   ("runs_batter", VInt (d_runs_batter d));
   ("runs_total", VInt (d_runs_total d));
   ("wicket_type", nullable VStr (d_wicket_type d))] ++ d_other d.

Definition match_columns (m : match_row) : row :=
  [("id", VStr (m_id m)); ("team1", VStr (m_team1 m)); ("team2", VStr (m_team2 m))] ++ m_other m.

(** A table of the schema, or the message of the [sqlite3.OperationalError]
    that preparing a statement over it ends in (no such table, no such
    column, file not a database). *)
Inductive table (A : Type) :=
| Missing (message : string)
| Stored (rows : list A).
Global Arguments Missing {A} message.
Global Arguments Stored {A} rows.

(** The database file.  The statements over [teams], [players], [innings]
    and [officials], and the grouped ones over [matches], are not
    interpreted: [db_other] is the engine's answer to each of them, prepared
    (or refused) first and then run on the bound parameters, where it can
    raise too. *)
Record database := Database {
  db_deliveries : table delivery;
  db_matches : table match_row;
  db_other : select → list string → string + (list sqlval → string + list row)
}.

(** *** Comparison and [LIKE] *)

(** [column = ?] on a TEXT column: a numeric parameter is compared as text. *)
Definition text_eq (column : string) (p : sqlval) : bool :=
  match p with
  | Null => false
  | Integer n => String.eqb column (pretty n)
  | Real x => String.eqb column (real_to_text x)
  | Text t => String.eqb column t
  end.

(** An INTEGER column against a parameter; [None] is NULL.  A text that does
    not look like a number sorts after every number. *)
Definition integer_compare (column : Z) (p : sqlval) : option comparison :=
  match p with
  | Null => None
  | Integer n => Some (column ?= n)
  | Real x => Some (int_compare_real column x)
  | Text t =>
    match text_to_numeric t with
    | Some (inl n) => Some (column ?= n)
    | Some (inr x) => Some (int_compare_real column x)
    | None => Some Lt
    end
  end.

Definition upper (c : ascii) : ascii :=
  let n := nat_of_ascii c in
  if ((97 <=? n) && (n <=? 122))%nat then ascii_of_nat (n - 32) else c.

Fixpoint uppercase (s : string) : string :=
  match s with
  | EmptyString => EmptyString
  | String c s' => String (upper c) (uppercase s')
  end.

(** [text LIKE pattern] on the characters of both: [%] any run of
    characters, [_] any one, letters of ASCII without regard to case. *)
Fixpoint like_characters (pattern : list string) : list string → bool :=
  match pattern with
  | [] => λ text, match text with [] => true | _ => false end
  | p :: pattern' =>
    if String.eqb p "%" then
      fix any (text : list string) : bool :=
        like_characters pattern' text
        || match text with [] => false | _ :: text' => any text' end
    else
      λ text,
        match text with
        | [] => false
        | c :: text' =>
          (String.eqb p "_" || String.eqb (uppercase p) (uppercase c))
          && like_characters pattern' text'
        end
  end.

Definition like (pattern text : string) : bool :=
  like_characters (characters pattern) (characters text).

(** The pattern of [column LIKE ?], a number being read as its text. *)
Definition pattern_of (p : sqlval) : option string :=
  match p with
  | Null => None
  | Integer n => Some (pretty n)
  | Real x => Some (real_to_text x)
  | Text t => Some t
  end.

Definition text_like (column : string) (p : sqlval) : bool :=
  match pattern_of p with
  | Some pattern => like pattern column
  | None => false
  end.

(** [SQLITE_MAX_LIKE_PATTERN_LENGTH]: [LIKE] raises on a pattern of more
    bytes, each time it is evaluated. *)
Definition like_pattern_limit : Z := 50000.

Definition pattern_error (p : sqlval) : option string :=
  match pattern_of p with
  | Some pattern =>
    if like_pattern_limit <? Z.of_nat (String.length pattern)
    then Some "LIKE or GLOB pattern too complex" else None
  | None => None
  end.

(** *** The [WHERE] clause over a delivery *)

Definition condition : Type := sqlval → delivery → bool.

(** The conjuncts the handlers write; any other text is refused. *)
Definition delivery_condition (c : string) : option condition :=
  if String.eqb c "d.match_id = ?" then Some (λ p d, text_eq (d_match_id d) p)
  else if String.eqb c "d.innings = ?" then
    Some (λ p d, match integer_compare (d_innings d) p with Some Eq => true | _ => false end)
  else if String.eqb c "d.over >= ?" then
    Some (λ p d, match integer_compare (d_over d) p with Some Eq | Some Gt => true | _ => false end)
  else if String.eqb c "d.over <= ?" then
    Some (λ p d, match integer_compare (d_over d) p with Some Eq | Some Lt => true | _ => false end)
  else if String.eqb c "d.batter LIKE ?" then Some (λ p d, text_like (d_batter d) p)
  else if String.eqb c "d.bowler LIKE ?" then Some (λ p d, text_like (d_bowler d) p)
  else None.

Fixpoint delivery_conditions (conditions : list string) : option (list condition) :=
  match conditions with
  | [] => Some []
  | c :: rest =>
    match delivery_condition c, delivery_conditions rest with
    | Some p, Some ps => Some (p :: ps)
    | _, _ => None
    end
  end.

(** The conjunction, each conjunct on its own positional parameter. *)
Fixpoint where_holds (conditions : list condition) (bound : list sqlval) (d : delivery) : bool :=
  match conditions, bound with
  | c :: conditions', p :: bound' => c p d && where_holds conditions' bound' d
  | _, _ => true
  end.

(** What evaluating a conjunct on its parameter raises, if anything. *)
Definition condition_error (c : string) (p : sqlval) : option string :=
  if String.eqb c "d.batter LIKE ?" || String.eqb c "d.bowler LIKE ?"
  then pattern_error p else None.

(** What testing a row raises: the conjuncts are evaluated in the order
    written, up to the first that does not hold. *)
Fixpoint where_error (conditions : list string) (bound : list sqlval) (d : delivery)
    : option string :=
  match conditions, bound with
  | c :: conditions', p :: bound' =>
    match condition_error c p with
    | Some message => Some message
    | None =>
      match delivery_condition c with
      | Some holds => if holds p d then where_error conditions' bound' d else None
      | None => None
      end
    end
  | _, _ => None
  end.

(** What the scan of the table raises.  Modelled from the spec, which
    names no index: every row of the table is tested. *)
Fixpoint scan_error (conditions : list string) (bound : list sqlval) (ds : list delivery)
    : option string :=
  match ds with
  | [] => None
  | d :: rest =>
    match where_error conditions bound d with
    | Some message => Some message
    | None => scan_error conditions bound rest
    end
  end.

(** *** [ORDER BY d.innings, d.over, d.ball] *)

Definition ball_key (d : delivery) : Z * Z * Z := (d_innings d, d_over d, d_ball d).

(** Ascending by innings, then over, then ball. *)
Definition key_le (a b : Z * Z * Z) : Prop :=
  a.1.1 < b.1.1 ∨ (a.1.1 = b.1.1 ∧ (a.1.2 < b.1.2 ∨ (a.1.2 = b.1.2 ∧ a.2 ≤ b.2))).

Definition ball_order (x y : delivery * match_row) : Prop :=
  key_le (ball_key (fst x)) (ball_key (fst y)).

(** Strictly so: one ball before another. *)
Definition key_lt (a b : Z * Z * Z) : Prop :=
  a.1.1 < b.1.1 ∨ (a.1.1 = b.1.1 ∧ (a.1.2 < b.1.2 ∨ (a.1.2 = b.1.2 ∧ a.2 < b.2))).

Definition ball_before (x y : delivery * match_row) : Prop :=
  key_lt (ball_key (fst x)) (ball_key (fst y)).

#[global] Instance ball_order_dec : RelDecision ball_order.
Proof. intros x y. unfold ball_order, key_le. apply _. Defined.

(** *** The interpreted statements *)

(** [SELECT d.*, m.team1, m.team2]: the columns of the delivery, then the
    two teams of its match. *)
Definition ball_row (dm : delivery * match_row) : row :=
  delivery_columns (fst dm) ++ [("team1", VStr (m_team1 (snd dm))); ("team2", VStr (m_team2 (snd dm)))].

(** [FROM deliveries d JOIN matches m ON m.id = d.match_id] *)
Definition join_matches (ds : list delivery) (ms : list match_row) : list (delivery * match_row) :=
  d ← ds; m ← List.filter (λ m, String.eqb (m_id m) (d_match_id d)) ms; [(d, m)].

Definition select_deliveries (ds : list delivery) (ms : list match_row)
    (conditions : list condition) (bound : list sqlval) : list row :=
  map ball_row
    (merge_sort ball_order
       (List.filter (λ dm, where_holds conditions bound (fst dm)) (join_matches ds ms))).

(** [SELECT * FROM matches WHERE id = ?] *)
Definition select_match (ms : list match_row) (bound : list sqlval) : list row :=
  map match_columns (List.filter (λ m, text_eq (m_id m) (hd Null bound)) ms).

(** An INTEGER of SQLite: 64 bits. *)
Definition int64 (n : Z) : bool := (- 2 ^ 63 <=? n) && (n <? 2 ^ 63).

(** The running total of [SUM] from [total] on, row after row; it raises
    as soon as a partial sum leaves 64 bits. *)
Fixpoint sum_from (total : Z) (l : list Z) : string + Z :=
  match l with
  | [] => inr total
  | x :: rest =>
    if int64 (total + x) then sum_from (total + x) rest else inl "integer overflow"
  end.

(** [SUM(column)]: NULL over no rows. *)
Definition sql_sum (l : list Z) : string + option Z :=
  match l with
  | [] => inr None
  | _ => match sum_from 0 l with inl message => inl message | inr total => inr (Some total) end
  end.

(** [COUNT(CASE WHEN test THEN 1 END)] *)
Definition sql_count (test : delivery → bool) (ds : list delivery) : value :=
  len (List.filter test ds).

(** [COUNT(DISTINCT d.match_id)] *)
Definition count_matches (ds : list delivery) : value :=
  len (remove_dups (map d_match_id ds)).

(** [ROUND(CAST(total AS FLOAT) / count * factor, 2)].  NULL stays NULL
    through the cast, the product and the rounding, and a division by zero
    is NULL. *)
Definition sql_cast_float (total : option Z) : option float :=
  real_of_int <$> total.

Definition sql_div (x : option float) (n : Z) : option float :=
  match x with
  | Some x => if n =? 0 then None else Some (real_div x (real_of_int n))
  | None => None
  end.

Definition sql_mul (x : option float) (n : Z) : option float :=
  (λ x, real_mul x (real_of_int n)) <$> x.

Definition sql_round (x : option float) (digits : Z) : option float :=
  (λ x, real_round x digits) <$> x.

Definition rate (total : option Z) (count factor : Z) : option float :=
  sql_round (sql_mul (sql_div (sql_cast_float total) count) factor) 2.

(** The one row of the batting aggregate over the deliveries kept by
    [WHERE]; [COUNT(d.id)] counts them all, [id] being an integer.  The
    statement raises when [SUM] does. *)
Definition batting_row (ds : list delivery) : string + row :=
  let balls := Z.of_nat (length ds) in
  match sql_sum (map d_runs_batter ds) with
  | inl message => inl message
  | inr runs =>
    inr [("balls_faced", VInt balls);
         ("runs_scored", nullable VInt runs);
         ("fours", sql_count (λ d, d_runs_batter d =? 4) ds);
         ("sixes", sql_count (λ d, d_runs_batter d =? 6) ds);
         ("boundaries", sql_count (λ d, 4 <=? d_runs_batter d) ds);
         ("strike_rate", nullable VFloat (rate runs balls 100));
         ("matches_played", count_matches ds)]
  end.

Definition is_wicket (d : delivery) : bool :=
  match d_wicket_type d with
  | Some kind => negb (String.eqb kind "")
  | None => false
  end.

Definition bowling_row (ds : list delivery) : string + row :=
  let balls := Z.of_nat (length ds) in
  match sql_sum (map d_runs_total ds) with
  | inl message => inl message
  | inr runs =>
    inr [("balls_bowled", VInt balls);
         ("runs_conceded", nullable VInt runs);
         ("wickets", sql_count is_wicket ds);
         ("economy_rate", nullable VFloat (rate runs balls 6));
         ("matches_bowled", count_matches ds)]
  end.

(** The deliveries an aggregate ranges over. *)
Definition kept (conditions : list condition) (bound : list sqlval) (ds : list delivery) : list delivery :=
  List.filter (where_holds conditions bound) ds.

(** *** Running a statement *)

Fixpoint count_char (c : ascii) (s : string) : nat :=
  match s with
  | EmptyString => 0%nat
  | String d s' => ((if Ascii.eqb c d then 1 else 0) + count_char c s')%nat
  end.

(** The number of [?] in the text of a statement. *)
Definition placeholders (query : statement) : nat :=
  ((match sql_select query with TeamsLike => 2 | MatchById => 1 | _ => 0 end)
   + foldr (λ c n, count_char "?"%char c + n) 0 (sql_conditions query))%nat.

(** Preparing a statement: the message of the error, or what the statement
    does once its parameters are bound, which is to return rows or to raise
    in its turn. *)
Definition prepare (db : database) (query : statement)
    : string + (list sqlval → string + list row) :=
  let conditions := sql_conditions query in
  let refused := inl ("near " +:+ where_clause conditions +:+ ": syntax error") in
  match sql_select query with
  | Deliveries =>
    match db_deliveries db, db_matches db, delivery_conditions conditions with
    | Missing message, _, _ => inl message
    | _, Missing message, _ => inl message
    | _, _, None => refused
    | Stored ds, Stored ms, Some cs =>
      inr (λ bound,
             match scan_error conditions bound ds with
             | Some message => inl message
             | None => inr (select_deliveries ds ms cs bound)
             end)
    end
  | MatchById =>
    match db_matches db, conditions with
    | Missing message, _ => inl message
    | Stored ms, [] => inr (λ bound, inr (select_match ms bound))
    | Stored _, _ => refused
    end
  | Batting =>
    match db_deliveries db, delivery_conditions conditions with
    | Missing message, _ => inl message
    | _, None => refused
    | Stored ds, Some cs =>
      inr (λ bound,
             match scan_error conditions bound ds with
             | Some message => inl message
             | None =>
               match batting_row (kept cs bound ds) with
               | inl message => inl message
               | inr r => inr [r]
               end
             end)
    end
  | Bowling =>
    match db_deliveries db, delivery_conditions conditions with
    | Missing message, _ => inl message
    | _, None => refused
    | Stored ds, Some cs =>
      inr (λ bound,
             match scan_error conditions bound ds with
             | Some message => inl message
             | None =>
               match bowling_row (kept cs bound ds) with
               | inl message => inl message
               | inr r => inr [r]
               end
             end)
    end
  | other => db_other db other conditions
  end.

(** [cursor.execute(query, params)] and [fetchall]: prepare, check the
    number of parameters, bind them in order, run. *)
Definition sqlite3_execute (db : database) (query : statement) (params : list value) : outcome :=
  match prepare db query with
  | inl message => Fault (Exn Sqlite3Error message)
  | inr run =>
    if bool_decide (length params = placeholders query) then
      match bind_parameters 1 params with
      | inl e => Fault e
      | inr bound =>
        match run bound with
        | inl message => Fault (Exn Sqlite3Error message)
        | inr rows => Rows rows
        end
      end
    else Fault (Exn Sqlite3Error "Incorrect number of bindings supplied")
  end.

(** The world at start-up, over a database file. *)
Definition boot (db : database) : world := World (sqlite3_execute db) [] [].

(** ** Vocabulary of the properties *)

(** [request] is a [tools/call] request, and [rid], [name] and [arguments]
    are what [handle_request] reads of it: [request.get("id")],
    [params.get("name")] and [params.get("arguments", {})]. *)
Definition is_call (request rid name arguments : value) : Prop :=
  ∃ items params,
    request = VDict items ∧
    assoc items "method" = Some (VStr "tools/call") ∧
    default (VDict []) (assoc items "params") = VDict params ∧
    rid = default VNone (assoc items "id") ∧
    name = default VNone (assoc params "name") ∧
    arguments = default (VDict []) (assoc params "arguments").

(** What the [try] block of [handle_request] makes of a handler's outcome. *)
Definition envelope (rid : value) (run : result value * world) : result response * world :=
  match run with
  | (Return result, w) => (Return (Success rid (TextContent result)), w)
  | (Raise e, w) => (Return (Failure rid (-32603) ("Internal error: " +:+ exn_str e)), w)
  end.

(** The error code of a run that answered with a failure envelope. *)
Definition error_code (run : result response) : option Z :=
  match run with
  | Return (Failure _ code _) => Some code
  | _ => None
  end.

(** A run without the echoed [id]. *)
Definition answer (run : result response) : result (payload + Z * string) :=
  match run with
  | Return (Success _ result) => Return (inl result)
  | Return (Failure _ code message) => Return (inr (code, message))
  | Raise e => Raise e
  end.

(** A member of a [dict]. *)
Definition field (d : value) (key : string) : option value :=
  match d with VDict items => assoc items key | _ => None end.

(** The arguments a tool's [inputSchema] declares, and the rest dropped. *)
Definition declared (t : tool) (key : string) : bool :=
  bool_decide (key ∈ map fst (t_properties t)).

Definition declared_only (t : tool) (items : list (string * value)) : list (string * value) :=
  List.filter (λ kv, declared t (fst kv)) items.

(** What a handler reads when an argument is absent: the [default] of its
    schema ('all' for [stat_type]), else [None]. *)
Definition schema_default (p : property) : value :=
  from_option VStr VNone (p_default p).

(** The argument [key] as a handler of a tool with property [p] reads it. *)
Definition argument (items : list (string * value)) (key : string) (p : property) : value :=
  default (schema_default p) (assoc items key).


(** A value [sqlite3] can bind without [OverflowError] or
    [UnicodeEncodeError]: no integer outside 64 bits, no string with a lone
    surrogate. *)
Definition fits (v : value) : bool :=
  match v with
  | VInt n => (- 2 ^ 63 <=? n) && (n <? 2 ^ 63)
  | VStr s => match encode_error 0 (characters s) with Some _ => false | None => true end
  | _ => true
  end.


(** What [execute_query] makes of the engine's outcome: the rows, no rows
    for a [sqlite3.Error], any other exception passed on. *)
Definition observe (o : outcome) : result (list row) :=
  match o with
  | Rows rows => Return rows
  | Fault e => if is_sqlite3_error e then Return [] else Raise e
  end.

(** The engine that returns no rows where [engine] raises a
    [sqlite3.Error]. *)
Definition quiet (engine : statement → list value → outcome) : statement → list value → outcome :=
  λ query params,
    match engine query params with
    | Fault e => if is_sqlite3_error e then Rows [] else Fault e
    | o => o
    end.

(** Two worlds whose databases answer every [execute_query] alike. *)
Definition alike (w1 w2 : world) : Prop :=
  ∀ query params, observe (w_engine w1 query params) = observe (w_engine w2 query params).

(** A computation that only reads the database, and only through what
    [execute_query] observes of it. *)
Definition steady {A} (m : M A) : Prop :=
  ∀ w1 w2, alike w1 w2 →
    fst (m w1) = fst (m w2) ∧
    w_engine (snd (m w1)) = w_engine w1 ∧
    w_engine (snd (m w2)) = w_engine w2.



End Server.

(** * The loader: [src/scripts/load_data.py]

    The script creates the two tables, reads every JSON file of [data/] into
    them and commits once at the end.  It is translated into a state and
    exception monad of its own, over the connection and the standard
    output; the files the script finds and what [json.load] makes of each
    are its input. *)

Section Loader.
Context `{Float64} `{Unicode}.

(** ** Exceptions

    The script catches nothing: the first exception ends it.  Their classes
    are kept, not their messages: those of the server, [IndexError], and
    what [open] or [json.load] raise on a file ([OSError],
    [UnicodeDecodeError], [json.JSONDecodeError]). *)

Inductive crash :=
| Raised (class : exn_class)
| IndexError
| FileError.

(** ** Python on the values of a JSON file *)

(** [v[i]] for an integer literal [i]. *)
Definition subscript_index (v : value) (i : nat) : crash + value :=
  match v with
  | VList xs => match xs !! i with Some x => inr x | None => inl IndexError end
  | VStr s => match characters s !! i with Some c => inr (VStr c) | None => inl IndexError end
  | VDict _ => inl (Raised KeyError)
  | _ => inl (Raised TypeError)
  end.

(** [v[key]] for a string literal [key]. *)
Definition subscript (v : value) (key : string) : crash + value :=
  match v with
  | VDict items => match assoc items key with Some x => inr x | None => inl (Raised KeyError) end
  | _ => inl (Raised TypeError)
  end.

(** [key in v] for a string literal [key]: a key of a [dict], an element of
    a [list], a part of a [str]. *)
Definition contains (key : string) (v : value) : crash + bool :=
  match v with
  | VDict items => inr (match assoc items key with Some _ => true | None => false end)
  | VList xs => inr (existsb (λ x, eq_str x key) xs)
  | VStr s => inr (match String.index 0 key s with Some _ => true | None => false end)
  | _ => inl (Raised TypeError)
  end.

(** [for x in v]: the elements of a [list], the keys of a [dict], the
    characters of a [str]. *)
Definition iterate (v : value) : crash + list value :=
  match v with
  | VList xs => inr xs
  | VDict items => inr (map (λ kv, VStr (fst kv)) items)
  | VStr s => inr (map VStr (characters s))
  | _ => inl (Raised TypeError)
  end.

(** [v.items()] *)
Definition dict_items (v : value) : crash + list (string * value) :=
  match v with
  | VDict items => inr items
  | _ => inl (Raised AttributeError)
  end.

(** [v.get(key, fallback)] *)
Definition dict_get (v : value) (key : string) (fallback : value) : crash + value :=
  match v with
  | VDict items => inr (default fallback (assoc items key))
  | _ => inl (Raised AttributeError)
  end.

(** [enumerate(xs, start)] *)
Fixpoint enumerate {A} (start : Z) (xs : list A) : list (Z * A) :=
  match xs with
  | [] => []
  | x :: rest => (start, x) :: enumerate (start + 1) rest
  end.

(** [a == b] on any two values: lists by their elements in order, dicts by
    their items whatever the order. *)
Fixpoint equal (a b : value) : bool :=
  match a, b with
  | VList xs, VList ys =>
    (fix all2 (xs ys : list value) : bool :=
       match xs, ys with
       | [], [] => true
       | x :: xs', y :: ys' => equal x y && all2 xs' ys'
       | _, _ => false
       end) xs ys
  | VDict items, VDict items' =>
    (length items =? length items')%nat &&
    (fix all (items : list (string * value)) : bool :=
       match items with
       | [] => true
       | (k, v) :: rest =>
         match assoc items' k with Some v' => equal v v' | None => false end && all rest
       end) items
  | VList _, _ | VDict _, _ | _, VList _ | _, VDict _ => false
  | _, _ => py_eqb a b
  end.

(** *** [os.path] *)

(** [p.rfind(c)] *)
Fixpoint rfind (c : ascii) (p : string) : option nat :=
  match p with
  | EmptyString => None
  | String a p' =>
    match rfind c p' with
    | Some i => Some (S i)
    | None => if Ascii.eqb a c then Some 0%nat else None
    end
  end.

(** [p[i:]] and [p[:i]] *)
Fixpoint from (i : nat) (p : string) : string :=
  match i, p with
  | S i', String _ p' => from i' p'
  | _, _ => p
  end.

Fixpoint upto (i : nat) (p : string) : string :=
  match i, p with
  | S i', String a p' => String a (upto i' p')
  | _, _ => EmptyString
  end.

(** [os.path.basename(p)]: what follows the last [/]. *)
Definition basename (p : string) : string :=
  match rfind "/" p with
  | Some i => from (S i) p
  | None => p
  end.

(** [os.path.splitext(p)]: the extension starts at the last dot of the last
    component, unless only dots precede it there. *)
Definition splitext (p : string) : string * string :=
  let filename := match rfind "/" p with Some i => S i | None => 0%nat end in
  match rfind "." p with
  | Some dot =>
    if (filename <=? dot)%nat
       && existsb (λ c, negb (Ascii.eqb c ".")) (list_ascii_of_string (upto (dot - filename) (from filename p)))
    then (upto dot p, from dot p)
    else (p, EmptyString)
  | None => (p, EmptyString)
  end.

(** ** The two tables

    A row is kept as the values bound when it was inserted; the affinity of
    a column (TEXT, or INTEGER) is applied where the script has stored
    values compared, which is all it observes of them. *)

Record match_record := MatchRecord {
  mr_id : sqlval;
  mr_date : sqlval;
  mr_city : sqlval;
  mr_venue : sqlval;
  mr_team1 : sqlval;
  mr_team2 : sqlval;
  mr_toss_winner : sqlval;
  mr_toss_decision : sqlval;
  mr_winner : sqlval;
  mr_result : sqlval;
  mr_margin : sqlval
}.

Record delivery_record := DeliveryRecord {
  dr_match_id : sqlval;
  dr_inning : sqlval;
  dr_batting_team : sqlval;
  dr_bowling_team : sqlval;
  dr_over : sqlval;
  dr_ball : sqlval;
  dr_batsman : sqlval;
  dr_non_striker : sqlval;
  dr_bowler : sqlval;
  dr_runs_batsman : sqlval;
  dr_runs_extras : sqlval;
  dr_runs_total : sqlval;
  dr_dismissal_kind : sqlval;
  dr_player_dismissed : sqlval
}.

Record tables := Tables {
  tb_matches : list match_record;
  tb_deliveries : list delivery_record
}.

(** The file [ipl.db] before the script runs: each table may be there or
    not, with the columns the script declares. *)
Record database_file := DatabaseFile {
  f_matches : option (list match_record);
  f_deliveries : option (list delivery_record)
}.

(** The two [CREATE TABLE IF NOT EXISTS]. *)
Definition create_tables (f : database_file) : tables :=
  Tables (default [] (f_matches f)) (default [] (f_deliveries f)).

(** *** Comparisons *)

(** A value under TEXT affinity; [None] is NULL. *)
Definition as_text (v : sqlval) : option string :=
  match v with
  | Null => None
  | Integer n => Some (pretty n)
  | Real x => Some (real_to_text x)
  | Text s => Some s
  end.

(** A value under INTEGER affinity, as far as comparisons tell: a text that
    looks like a number is that number. *)
Definition as_number (v : sqlval) : sqlval :=
  match v with
  | Text s =>
    match text_to_numeric s with
    | Some (inl n) => Integer n
    | Some (inr x) => Real x
    | None => Text s
    end
  | _ => v
  end.

(** [column = ?] on a TEXT column. *)
Definition text_column_eq (stored p : sqlval) : bool :=
  match as_text stored, as_text p with
  | Some s, Some t => String.eqb s t
  | _, _ => false
  end.

(** [column = ?] on an INTEGER column. *)
Definition integer_column_eq (stored p : sqlval) : bool :=
  match as_number stored, as_number p with
  | Integer m, Integer n => m =? n
  | Integer m, Real y => match int_compare_real m y with Eq => true | _ => false end
  | Real x, Integer n => match int_compare_real n x with Eq => true | _ => false end
  | Real x, Real y => float_eqb x y
  | Text s, Text t => String.eqb s t
  | _, _ => false
  end.

(** ** The connection and the output *)

(** What the file holds, what the connection sees (the file and the
    changes not yet committed), and the lines printed. *)
Record session := Session {
  committed : tables;
  current : tables;
  printed : list string
}.

Definition L (A : Type) : Type := session → (crash + A) * session.

#[global] Instance L_ret : MRet L := λ A a s, (inr a, s).
#[global] Instance L_bind : MBind L := λ A B k m s,
  match m s with
  | (inr a, s') => k a s'
  | (inl e, s') => (inl e, s')
  end.

(** A step that only computes. *)
Definition lift {A} (x : crash + A) : L A := λ s, (x, s).

(** [for x in xs: body] *)
Fixpoint for_each {A} (body : A → L unit) (xs : list A) : L unit :=
  match xs with
  | [] => mret tt
  | x :: rest => _ ← body x; for_each body rest
  end.

Definition print (text : string) : L unit :=
  λ s, (inr tt, Session (committed s) (current s) (printed s ++ [text])).

(** [conn.commit()] *)
Definition commit : L unit :=
  λ s, (inr tt, Session (current s) (current s) (printed s)).

(** Binding the parameters of a statement, as the server's are: the class
    of what it raises is kept. *)
Definition bind_all (params : list value) : crash + list sqlval :=
  match bind_parameters 1 params with
  | inl e => inl (Raised (exn_kind e))
  | inr bound => inr bound
  end.

(** [INSERT OR REPLACE INTO matches (...) VALUES (?, ..., ?)]: [id] is the
    primary key; the rows with the new [id] go, the new row comes last. *)
Definition insert_or_replace_match (params : list value) : L unit :=
  λ s,
    match bind_all params with
    | inl e => (inl e, s)
    | inr [id; date; city; venue; team1; team2; toss_winner; toss_decision; winner; result; margin] =>
      let row := MatchRecord id date city venue team1 team2 toss_winner toss_decision
                             winner result margin in
      let kept := List.filter (λ r, negb (text_column_eq (mr_id r) id)) (tb_matches (current s)) in
      (inr tt, Session (committed s)
                       (Tables (kept ++ [row]) (tb_deliveries (current s)))
                       (printed s))
    | inr _ => (inl (Raised Sqlite3Error), s)
    end.

(** The [WHERE] clause [match_id=? AND inning=? AND over=?]. *)
Definition in_over (match_id inning over : sqlval) (r : delivery_record) : bool :=
  text_column_eq (dr_match_id r) match_id
  && integer_column_eq (dr_inning r) inning
  && integer_column_eq (dr_over r) over.

(** [SELECT * FROM deliveries WHERE match_id=? AND inning=? AND over=?],
    then [fetchall]. *)
Definition select_over (params : list value) : L (list delivery_record) :=
  λ s,
    match bind_all params with
    | inl e => (inl e, s)
    | inr [match_id; inning; over] =>
      (inr (List.filter (in_over match_id inning over) (tb_deliveries (current s))), s)
    | inr _ => (inl (Raised Sqlite3Error), s)
    end.

(** [INSERT INTO deliveries (...) VALUES (?, ..., ?)] *)
Definition insert_delivery (params : list value) : L unit :=
  λ s,
    match bind_all params with
    | inl e => (inl e, s)
    | inr [match_id; inning; batting_team; bowling_team; over; ball; batsman; non_striker;
           bowler; runs_batsman; runs_extras; runs_total; dismissal_kind; player_dismissed] =>
      let row := DeliveryRecord match_id inning batting_team bowling_team over ball batsman
                                non_striker bowler runs_batsman runs_extras runs_total
                                dismissal_kind player_dismissed in
      (inr tt, Session (committed s)
                       (Tables (tb_matches (current s)) (tb_deliveries (current s) ++ [row]))
                       (printed s))
    | inr _ => (inl (Raised Sqlite3Error), s)
    end.

(** ** [parse_match] *)

(** The body of [for delivery in over_data["deliveries"]]. *)
Definition load_delivery (match_id : string) (team1 team2 : value) (inning_number : Z)
    (batting_team over delivery : value) : L unit :=
  batsman ← lift (dict_get delivery "batter" VNone);
  non_striker ← lift (dict_get delivery "non_striker" VNone);
  bowler ← lift (dict_get delivery "bowler" VNone);
  bowling_team ← lift (dict_get delivery "team" (VStr ""));
  runs ← lift (dict_get delivery "runs" (VDict []));
  runs_batsman ← lift (dict_get runs "batter" (VInt 0));
  runs_extras ← lift (dict_get runs "extras" (VInt 0));
  runs_total ← lift (dict_get runs "total" (VInt 0));
  has_wickets ← lift (contains "wickets" delivery);
  dismissal ←
    (if has_wickets : bool then
       wickets ← lift (subscript delivery "wickets");
       wicket_info ← lift (subscript_index wickets 0);
       dismissal_kind ← lift (dict_get wicket_info "kind" (VStr ""));
       player_dismissed ← lift (dict_get wicket_info "player_out" (VStr ""));
       mret (dismissal_kind, player_dismissed)
     else mret (VStr "", VStr ""));
  stored ← select_over [VStr match_id; VInt inning_number; over];
  let ball := Z.of_nat (length stored) + 1 in
  insert_delivery [
    VStr match_id; VInt inning_number; batting_team;
    (if equal batting_team team1 then team2 else team1);
    over; VInt ball; batsman; non_striker; bowler;
    runs_batsman; runs_extras; runs_total;
    fst dismissal; snd dismissal].

(** The body of [for over_data in inning_data["overs"]]. *)
Definition load_over (match_id : string) (team1 team2 : value) (inning_number : Z)
    (batting_team over_data : value) : L unit :=
  over ← lift (subscript over_data "over");
  deliveries ← lift (subscript over_data "deliveries");
  deliveries ← lift (iterate deliveries);
  for_each (load_delivery match_id team1 team2 inning_number batting_team over) deliveries.

(** The body of [for inning_name, inning_data in inning.items()]. *)
Definition load_inning (match_id : string) (team1 team2 : value) (inning_number : Z)
    (inning_data : value) : L unit :=
  batting_team ← lift (subscript inning_data "team");
  overs ← lift (subscript inning_data "overs");
  overs ← lift (iterate overs);
  for_each (load_over match_id team1 team2 inning_number batting_team) overs.

(** The margin of the [outcome]: ["<n> runs"], ["<n> wickets"] or nothing. *)
Definition margin_of (outcome : value) : L string :=
  has_by ← lift (contains "by" outcome);
  if has_by : bool then
    by_ ← lift (subscript outcome "by");
    has_runs ← lift (contains "runs" by_);
    if has_runs : bool then
      by_ ← lift (subscript outcome "by");
      runs ← lift (subscript by_ "runs");
      mret (py_str runs +:+ " runs")
    else
      by_ ← lift (subscript outcome "by");
      has_wickets ← lift (contains "wickets" by_);
      if has_wickets : bool then
        by_ ← lift (subscript outcome "by");
        wickets ← lift (subscript by_ "wickets");
        mret (py_str wickets +:+ " wickets")
      else mret ""
  else mret "".

(** [parse_match(filepath)], on what [json.load] makes of the file. *)
Definition parse_match (filepath : string) (content : crash + value) : L unit :=
  data ← lift content;
  info ← lift (dict_get data "info" (VDict []));
  let match_id := fst (splitext (basename filepath)) in
  dates ← lift (subscript info "dates");
  date ← lift (subscript_index dates 0);
  city ← lift (dict_get info "city" (VStr ""));
  venue ← lift (dict_get info "venue" (VStr ""));
  teams ← lift (dict_get info "teams" (VList [VStr ""; VStr ""]));
  team1 ← lift (subscript_index teams 0);
  team2 ← lift (subscript_index teams 1);
  toss ← lift (dict_get info "toss" (VDict []));
  toss_winner ← lift (dict_get toss "winner" (VStr ""));
  toss_decision ← lift (dict_get toss "decision" (VStr ""));
  outcome ← lift (dict_get info "outcome" (VDict []));
  winner ← lift (dict_get outcome "winner" (VStr ""));
  result ← lift (dict_get outcome "result" (VStr "normal"));
  margin ← margin_of outcome;
  _ ← insert_or_replace_match [
        VStr match_id; date; city; venue; team1; team2;
        toss_winner; toss_decision; winner; result; VStr margin];
  innings ← lift (dict_get data "innings" (VList []));
  innings ← lift (iterate innings);
  for_each (λ numbered : Z * value,
              let inning_number := fst numbered in
              let inning := snd numbered in
              pairs ← lift (dict_items inning);
              for_each (λ pair : string * value,
                          load_inning match_id team1 team2 inning_number (snd pair))
                       pairs)
           (enumerate 1 innings).

(** ** The script *)

(** The connection once the tables are created: the statements that create
    them are not part of a transaction. *)
Definition connect (f : database_file) : session :=
  Session (create_tables f) (create_tables f) [].

(** The files [glob] finds, in the order it gives them, each with what
    [open] and [json.load] make of it. *)
Definition load_all (files : list (string * (crash + value))) : L unit :=
  _ ← for_each (λ file : string * (crash + value),
                  _ ← print ("Loading: " +:+ fst file);
                  parse_match (fst file) (snd file))
               files;
  _ ← commit;
  print "âœ… All matches loaded into ipl.db".

(** The run of the script over a database file: how it ended, what it
    printed and what the file holds afterwards (only what was committed). *)
Definition load_data (f : database_file) (files : list (string * (crash + value)))
    : (crash + unit) * session :=
  load_all files (connect f).

End Loader.

(** ** Sample data

    An implementation of [Float64] by exact rationals and a small database,
    to run the model on concrete requests.  (The rationals are not IEEE
    arithmetic; nothing below depends on how they round or print.) *)

Module Sample.

Definition round_half_away (x : Q) (digits : Z) : Q :=
  let scale := inject_Z (10 ^ digits) in
  let half := (1 # 2)%Q in
  if Qle_bool 0 x
  then (inject_Z (Qfloor (x * scale + half)) / scale)%Q
  else (inject_Z (Qceiling (x * scale - half)) / scale)%Q.

Definition fraction (x : Q) : string :=
  pretty (Qnum x) +:+ "/" +:+ pretty (Zpos (Qden x)).

#[local] Instance rationals : Float64 := {|
  float := Q;
  float_eqb := Qeq_bool;
  float_eqb_int x n := Qeq_bool x (inject_Z n);
  float_repr := fraction;
  real_of_int := inject_Z;
  real_div := Qdiv;
  real_mul := Qmult;
  real_round := round_half_away;
  int_compare_real n x := Qcompare (inject_Z n) x;
  real_to_text := fraction;
  text_to_numeric _ := None
|}.

(** A part of the Unicode database: the characters up to U+00FF that are
    not printable, the separators and format characters of the General
    Punctuation block, the surrogates and the private use area. *)
#[local] Instance latin : Unicode := {|
  printable code :=
    negb ((code <? 32) || ((127 <=? code) && (code <=? 160)) || (code =? 173)
          || ((8192 <=? code) && (code <=? 8207)) || ((8232 <=? code) && (code <=? 8239))
          || ((55296 <=? code) && (code <=? 63743)))
|}.

Definition ball (id : Z) (match_id : string) (innings over ball : Z)
    (batter bowler : string) (runs : Z) (wicket : option string) : delivery :=
  Delivery id match_id innings over ball batter bowler runs runs wicket [].

(** Two overs of match 335982 and one ball of another match, stored out of
    order. *)
Definition deliveries : list delivery := [
  ball 4 "335982" 2 0 1 "PA Patel" "Z Khan" 1 None;
  ball 3 "335982" 1 1 1 "BB McCullum" "Z Khan" 4 None;
  ball 2 "335982" 1 0 2 "BB McCullum" "P Kumar" 0 None;
  ball 1 "335982" 1 0 1 "SC Ganguly" "P Kumar" 1 (Some "caught");
  ball 5 "335983" 1 0 1 "V Kohli" "B Lee" 6 None
].

Definition matches : list match_row := [
  Match "335982" "Kolkata Knight Riders" "Royal Challengers Bangalore" [("season", VInt 2008)];
  Match "335983" "Kings XI Punjab" "Chennai Super Kings" [("season", VInt 2008)]
].

(** The answers to the statements that are not interpreted: one team for
    the list of all teams, no rows otherwise. *)
Definition other (s : select) (conditions : list string)
    : string + (list sqlval → string + list row) :=
  match s with
  | TeamsAll =>
    inr (λ _, inr [[("id", VInt 1); ("name", VStr "Kolkata Knight Riders");
                    ("short_name", VStr "KKR"); ("wins", VInt 1); ("total_matches", VInt 1)]])
  | _ => inr (λ _, inr [])
  end.

Definition db : database :=
  Database (Stored deliveries) (Stored matches) other.

(** A ball bowled again: two deliveries at one position of one over. *)
Definition replayed : list delivery := [
  ball 2 "335982" 1 0 1 "SC Ganguly" "P Kumar" 4 None;
  ball 1 "335982" 1 0 1 "SC Ganguly" "P Kumar" 0 None
].

Definition replayed_db : database :=
  Database (Stored replayed) (Stored matches) other.

(** The string [json.loads] makes of ["\ud800"]: a lone surrogate, here the
    three bytes that would encode it. *)
Definition lone_surrogate : string :=
  String (ascii_of_nat 237) (String (ascii_of_nat 160) (String (ascii_of_nat 128) "")).

(** The database [load_data.py] creates: a [matches] table with its own
    columns, a [deliveries] table with the older column names, on which the
    server's statements cannot be prepared, and no other table. *)
Definition loaded_matches : list match_row := [
  Match "335982" "Kolkata Knight Riders" "Royal Challengers Bangalore"
    [("date", VStr "2008-04-18"); ("city", VStr "Bangalore");
     ("venue", VStr "M Chinnaswamy Stadium");
     ("toss_winner", VStr "Royal Challengers Bangalore"); ("toss_decision", VStr "field");
     ("winner", VStr "Kolkata Knight Riders"); ("result", VStr "normal");
     ("margin", VStr "140 runs")]
].

Definition loaded_other (s : select) (conditions : list string)
    : string + (list sqlval → string + list row) :=
  match s with
  | TeamsLike | TeamsAll => inl "no such table: teams"
  | Players => inl "no such table: players"
  | Matches => inl "no such table: innings"
  | Officials => inl "no such table: officials"
  | _ =>
    inr (λ _, inr match conditions with
                  | [] => [[("venue", VStr "M Chinnaswamy Stadium"); ("total_matches", VInt 1);
                            ("team1_wins", VInt 1); ("team2_wins", VInt 0);
                            ("teams_won", VStr "Kolkata Knight Riders");
                            ("first_match_date", VStr "2008-04-18");
                            ("last_match_date", VStr "2008-04-18")]]
                  | _ => []
                  end)
  end.

Definition loaded_db : database :=
  Database (Missing "no such column: d.innings") (Stored loaded_matches) loaded_other.

(** The first of the tool descriptors, [get_team_info]. *)
Definition team_info_tool : tool :=
  Tool "get_team_info" "Get information about IPL teams"
    [("team_name", prop "string" "Name or short name of the team")] None.

(** The fourth, [get_ball_by_ball]. *)
Definition ball_by_ball_tool : tool :=
  Tool "get_ball_by_ball" "Get ball-by-ball commentary and deliveries for a match"
    [("match_id", prop "string" "Match ID");
     ("innings", prop "integer" "Innings number (1 or 2)");
     ("over_start", prop "integer" "Starting over number");
     ("over_end", prop "integer" "Ending over number")]
    (Some ["match_id"]).

(** [{"jsonrpc": "2.0", "id": id, "method": "tools/call",
      "params": {"name": name, "arguments": arguments}}] *)
Definition call_items (id : value) (name : string) (arguments : value) : list (string * value) :=
  [("jsonrpc", VStr "2.0"); ("id", id); ("method", VStr "tools/call");
   ("params", VDict [("name", VStr name); ("arguments", arguments)])].

Definition call (id : value) (name : string) (arguments : value) : value :=
  VDict (call_items id name arguments).

End Sample.

(** ** Sample files

    A match in the layout [parse_match] reads (each entry of [innings] maps
    a name to the innings), and the same match in the layout of the
    Cricsheet JSON files (each entry of [innings] is the innings itself). *)

Module Files.
Section Files.
Context `{Float64}.

Definition info : value :=
  VDict [("dates", VList [VStr "2008-04-18"]);
         ("city", VStr "Bangalore");
         ("venue", VStr "M Chinnaswamy Stadium");
         ("teams", VList [VStr "Royal Challengers Bangalore"; VStr "Kolkata Knight Riders"]);
         ("toss", VDict [("winner", VStr "Royal Challengers Bangalore");
                         ("decision", VStr "field")]);
         ("outcome", VDict [("winner", VStr "Kolkata Knight Riders");
                            ("by", VDict [("runs", VInt 140)])])].

Definition delivery (batter non_striker bowler : string) (runs extras : Z)
    (wickets : list (string * value)) : value :=
  VDict ([("batter", VStr batter); ("bowler", VStr bowler); ("non_striker", VStr non_striker);
          ("runs", VDict [("batter", VInt runs); ("extras", VInt extras);
                          ("total", VInt (runs + extras))])] ++ wickets).

Definition first_innings : value :=
  VDict [("team", VStr "Kolkata Knight Riders");
         ("overs", VList [
            VDict [("over", VInt 0);
                   ("deliveries", VList [
                      delivery "SC Ganguly" "BB McCullum" "P Kumar" 0 1 [];
                      delivery "BB McCullum" "SC Ganguly" "P Kumar" 0 0 [];
                      delivery "BB McCullum" "SC Ganguly" "P Kumar" 4 0 []])];
            VDict [("over", VInt 1);
                   ("deliveries", VList [
                      delivery "SC Ganguly" "BB McCullum" "Z Khan" 0 0
                        [("wickets", VList [VDict [("kind", VStr "caught");
                                                   ("player_out", VStr "SC Ganguly")]])]])]])].

Definition scorecard : value :=
  VDict [("info", info); ("innings", VList [VDict [("1st innings", first_innings)]])].

Definition cricsheet : value :=
  VDict [("info", info); ("innings", VList [first_innings])].

(** No file at all: neither table exists. *)
Definition no_database : database_file := DatabaseFile None None.

End Files.
End Files.

(** * Vocabulary of the further properties *)

Section Vocabulary.
Context `{Float64} `{Unicode}.

(** The methods [handle_request] knows. *)
Definition methods : list string :=
  ["initialize"; "tools/list"; "tools/call"; "resources/list"; "prompts/list"].

(** The [id] member of an envelope. *)
Definition response_id (r : response) : value :=
  match r with
  | Success rid _ => rid
  | Failure rid _ _ => rid
  end.

(** The requests [handle_request] can read: an object, and for [tools/call]
    one whose [params] (an object when absent) is an object with a hashable
    [name]. *)
Definition readable (request : value) : bool :=
  match request with
  | VDict items =>
    if eq_str (default VNone (assoc items "method")) "tools/call" then
      match default (VDict []) (assoc items "params") with
      | VDict params => hashable (default VNone (assoc params "name"))
      | _ => false
      end
    else true
  | _ => false
  end.

(** The optional filters a handler applies [if value:], by tool and
    argument, where the result does not repeat the argument. *)
Definition optional_filters : list (string * string) := [
  ("get_team_info", "team_name");
  ("get_player_info", "player_name");
  ("get_player_info", "team_name");
  ("get_match_details", "match_id");
  ("get_match_details", "season");
  ("get_match_details", "team_name");
  ("get_match_details", "venue");
  ("get_ball_by_ball", "innings");
  ("get_match_officials", "match_id");
  ("get_match_officials", "official_name");
  ("get_venue_info", "venue_name");
  ("get_venue_info", "city")
].





(** The world over another engine. *)
Definition rebased (engine : statement → list value → outcome) (w : world) : world :=
  World engine (w_stderr w) (w_stdout w).

(** Two engines that answer alike every statement run with as many
    parameters as its text has placeholders. *)
Definition counted (engine engine' : statement → list value → outcome) : Prop :=
  ∀ query params, length params = placeholders query → engine query params = engine' query params.

(** A computation that runs no other statement: over two such engines it
    gives the same result and writes the same lines. *)
Definition bound_run {A} (m : M A) : Prop :=
  ∀ w engine', counted (w_engine w) engine' →
    fst (m (rebased engine' w)) = fst (m w) ∧
    snd (m (rebased engine' w)) = rebased engine' (snd (m w)) ∧
    w_engine (snd (m w)) = w_engine w.


(** A line that [execute_query] writes to stderr over [engine]. *)
Definition database_error (engine : statement → list value → outcome) (text : string) : Prop :=
  ∃ query params message,
    engine query params = Fault (Exn Sqlite3Error message) ∧
    text = "Database error: " +:+ message.

(** A computation that leaves the database and stdout alone, and adds to
    stderr nothing but the faults of the database. *)
Definition quiet_run {A} (m : M A) : Prop :=
  ∀ w,
    w_engine (snd (m w)) = w_engine w ∧
    w_stdout (snd (m w)) = w_stdout w ∧
    ∃ log, w_stderr (snd (m w)) = w_stderr w ++ log ∧ Forall (database_error (w_engine w)) log.





(** What a value is bound as, when it can be bound. *)
Definition bound_as (v : value) : sqlval :=
  match v with
  | VBool b => Integer (if b then 1 else 0)
  | VInt n => Integer n
  | VFloat x => if float_eqb x x then Real x else Null
  | VStr s => Text s
  | _ => Null
  end.

(** The deliveries an aggregate of [get_player_performance] ranges over:
    those whose [column] (the batter, the bowler) is like the name asked
    for between two [%], of the match asked for when there is one. *)
Definition deliveries_of (column : delivery → string) (player_name match_id : value)
    (ds : list delivery) : list delivery :=
  List.filter
    (λ d, like ("%" +:+ py_str player_name +:+ "%") (column d)
          && (negb (truthy match_id) || text_eq (d_match_id d) (bound_as match_id)))
    ds.



(** ** The loader *)

(** The deliveries stored before a row that the [WHERE] clause of
    [parse_match] finds for the position of that row. *)
Definition earlier_in_over (r : delivery_record) (before : list delivery_record)
    : list delivery_record :=
  List.filter (in_over (dr_match_id r) (dr_inning r) (dr_over r)) before.

(** A table whose balls are numbered: each row has for [ball] one more than
    the number of rows stored before it in its over. *)
Definition numbered (ds : list delivery_record) : Prop :=
  ∀ i r, ds !! i = Some r →
    dr_ball r = Integer (Z.of_nat (length (earlier_in_over r (take i ds))) + 1).

(** The ids of the matches stored, NULLs apart, as the TEXT column has
    them. *)
Definition match_ids (ms : list match_record) : list string :=
  omap (λ r, as_text (mr_id r)) ms.

(** The primary key of [matches]. *)
Definition unique_ids (ms : list match_record) : Prop := NoDup (match_ids ms).

(** The line printed for a file. *)
Definition announce (file : string * (crash + value)) : string :=
  "Loading: " +:+ fst file.

(** A step from one state of the session to another that leaves the file and
    the output alone. *)
Definition pending (s s' : session) : Prop :=
  committed s' = committed s ∧ printed s' = printed s.

(** One that moreover only adds deliveries, numbered if the table was. *)
Definition appends (s s' : session) : Prop :=
  pending s s' ∧
  tb_matches (current s') = tb_matches (current s) ∧
  ∃ new,
    tb_deliveries (current s') = tb_deliveries (current s) ++ new ∧
    (numbered (tb_deliveries (current s)) → numbered (tb_deliveries (current s'))).

(** One that keeps the tables as the script means them: the file untouched,
    deliveries only added and numbered, the ids of the matches unique and
    none of them lost. *)
Definition loads (s s' : session) : Prop :=
  committed s' = committed s ∧
  (∃ new,
     tb_deliveries (current s') = tb_deliveries (current s) ++ new ∧
     (numbered (tb_deliveries (current s)) → numbered (tb_deliveries (current s')))) ∧
  (unique_ids (tb_matches (current s)) → unique_ids (tb_matches (current s'))) ∧
  (∀ id, id ∈ match_ids (tb_matches (current s)) → id ∈ match_ids (tb_matches (current s'))).

(** A computation all of whose runs are such steps. *)
Definition steps {A} (R : relation session) (m : L A) : Prop :=
  ∀ s, R s (snd (m s)).

(** An entry of [innings] in the layout of the Cricsheet files: an object
    whose first member is not an object ([team], the name of a team). *)
Definition cricsheet_layout (data : value) : Prop :=
  ∃ items name member more rest,
    data = VDict items ∧
    assoc items "innings" = Some (VList (VDict ((name, member) :: more) :: rest)) ∧
    match member with VDict _ => False | _ => True end.

(** A delivery row without its ball number. *)
Definition without_ball (r : delivery_record) : delivery_record :=
  DeliveryRecord (dr_match_id r) (dr_inning r) (dr_batting_team r) (dr_bowling_team r)
                 (dr_over r) Null (dr_batsman r) (dr_non_striker r) (dr_bowler r)
                 (dr_runs_batsman r) (dr_runs_extras r) (dr_runs_total r)
                 (dr_dismissal_kind r) (dr_player_dismissed r).

(** The database file a run of the script leaves. *)
Definition left_by (s : session) : database_file :=
  DatabaseFile (Some (tb_matches (committed s))) (Some (tb_deliveries (committed s))).

(** The rows of [matches] whose id is none of [ids]. *)
Definition other_matches (ids : list string) (ms : list match_record) : list match_record :=
  List.filter (λ r, negb (existsb (λ id, text_column_eq (mr_id r) (Text id)) ids)) ms.

(** A computation whose result does not depend on the session, and which
    leaves it as it was. *)
Definition computes {A} (m : L A) : Prop := ∃ r, ∀ s, m s = (r, s).

(** Two runs that leave the matches alone and add the same deliveries, ball
    numbers apart. *)
Definition same_deliveries (s s' t t' : session) : Prop :=
  tb_matches (current t) = tb_matches (current s) ∧
  tb_matches (current t') = tb_matches (current s') ∧
  ∃ new new',
    tb_deliveries (current t) = tb_deliveries (current s) ++ new ∧
    tb_deliveries (current t') = tb_deliveries (current s') ++ new' ∧
    map without_ball new = map without_ball new'.

(** A computation any two normal runs of which return the same and are so
    related. *)
Definition alongside {A} (m : L A) : Prop :=
  ∀ s s' a a' t t',
    m s = (inr a, t) → m s' = (inr a', t') → a = a' ∧ same_deliveries s s' t t'.

End Vocabulary.

(** * Properties *)

Section Properties.
Context `{Float64} `{Unicode}.

(** ** Computations that only read the database *)

Lemma alike_frame (w1 w2 w1' w2' : world) :
  alike w1 w2 → w_engine w1' = w_engine w1 → w_engine w2' = w_engine w2 → alike w1' w2'.
Proof. intros Hw E1 E2 query params. rewrite E1, E2. apply Hw. Qed.

Lemma alike_refl (w1 w2 : world) : w_engine w1 = w_engine w2 → alike w1 w2.
Proof. intros E query params. by rewrite E. Qed.

Lemma alike_quiet (w : world) :
  alike w (World (quiet (w_engine w)) (w_stderr w) (w_stdout w)).
Proof.
  intros query params. simpl. unfold quiet.
  destruct (w_engine w query params) as [rows|e]; [done|].
  simpl. destruct (is_sqlite3_error e) eqn:E; simpl; by rewrite ?E.
Qed.

Lemma steady_ret {A} (a : A) : steady (mret a).
Proof. by intros w1 w2 _. Qed.

Lemma steady_raise {A} (e : exn) : steady (@raise _ A e).
Proof. by intros w1 w2 _. Qed.

Lemma steady_bind {A B} (m : M A) (k : A → M B) :
  steady m → (∀ a, steady (k a)) → steady (m ≫= k).
Proof.
  intros Hm Hk w1 w2 Hw. destruct (Hm w1 w2 Hw) as (E & F1 & F2).
  unfold mbind, M_bind, bind.
  destruct (m w1) as [[a1|e1] w1'], (m w2) as [[a2|e2] w2']; simpl in *; simplify_eq; [|done].
  destruct (Hk a2 w1' w2') as (E' & G1 & G2); [by eapply alike_frame|].
  by rewrite E', G1, G2.
Qed.

Lemma steady_try {A} (body : M A) (catches : exn → bool) (handler : exn → M A) :
  steady body → (∀ e, steady (handler e)) → steady (try_except body catches handler).
Proof.
  intros Hm Hk w1 w2 Hw. destruct (Hm w1 w2 Hw) as (E & F1 & F2).
  unfold try_except.
  destruct (body w1) as [[a1|e1] w1'], (body w2) as [[a2|e2] w2']; simpl in *; simplify_eq; [done|].
  destruct (catches e2); [|done].
  destruct (Hk e2 w1' w2') as (E' & G1 & G2); [by eapply alike_frame|].
  by rewrite E', G1, G2.
Qed.

Lemma steady_print_stderr (text : string) : steady (print_stderr text).
Proof. by intros w1 w2 _. Qed.

Lemma steady_print_stdout (r : response) : steady (print_stdout r).
Proof. by intros w1 w2 _. Qed.

Lemma steady_get (d : value) (key : string) (fallback : value) : steady (get d key fallback).
Proof. destruct d; by intros w1 w2 _. Qed.

Lemma steady_item (r : row) (key : string) : steady (item r key).
Proof. unfold item. destruct (assoc r key); by intros w1 w2 _. Qed.

Lemma steady_hash (v : value) : steady (hash v).
Proof. unfold hash. destruct (hashable v); by intros w1 w2 _. Qed.

(** [execute_query] returns what [observe] says and leaves the database as
    it was. *)
Lemma execute_query_observe (query : statement) (params : list value) (w : world) :
  fst (execute_query query params w) = observe (w_engine w query params) ∧
  w_engine (snd (execute_query query params w)) = w_engine w.
Proof.
  unfold execute_query, try_except, fetchall, observe.
  destruct (w_engine w query params) as [rows|e]; [done|].
  by destruct (is_sqlite3_error e).
Qed.

Lemma steady_execute_query (query : statement) (params : list value) :
  steady (execute_query query params).
Proof.
  intros w1 w2 Hw.
  destruct (execute_query_observe query params w1) as [-> ->].
  destruct (execute_query_observe query params w2) as [-> ->].
  by rewrite (Hw query params).
Qed.

Create HintDb steady.
#[local] Hint Resolve steady_ret steady_raise steady_print_stderr steady_print_stdout
  steady_get steady_item steady_hash steady_execute_query : steady.

Ltac steady_step :=
  first
    [ solve [auto with steady]
    | apply steady_bind; [|intros ?]
    | apply steady_try; [|intros ?]
    | match goal with
      | |- steady (if ?b then _ else _) => destruct b
      | |- steady (match ?x with _ => _ end) => destruct x
      end ].

Lemma steady_overs_set (results : list row) (seen : list (value * value)) :
  steady (overs_set results seen).
Proof.
  revert seen. induction results as [|r rest IH]; intros seen; simpl; [auto with steady|].
  repeat steady_step.
Qed.
#[local] Hint Resolve steady_overs_set : steady.

Lemma steady_handle_get_team_info (arguments : value) : steady (handle_get_team_info arguments).
Proof. unfold handle_get_team_info. repeat steady_step. Qed.

Lemma steady_handle_get_player_info (arguments : value) : steady (handle_get_player_info arguments).
Proof. unfold handle_get_player_info. repeat steady_step. Qed.

Lemma steady_handle_get_match_details (arguments : value) :
  steady (handle_get_match_details arguments).
Proof. unfold handle_get_match_details. repeat steady_step. Qed.

Lemma steady_handle_get_ball_by_ball (arguments : value) :
  steady (handle_get_ball_by_ball arguments).
Proof. unfold handle_get_ball_by_ball. repeat steady_step. Qed.

Lemma steady_handle_get_player_performance (arguments : value) :
  steady (handle_get_player_performance arguments).
Proof. unfold handle_get_player_performance. repeat steady_step. Qed.

Lemma steady_handle_get_match_officials (arguments : value) :
  steady (handle_get_match_officials arguments).
Proof. unfold handle_get_match_officials. repeat steady_step. Qed.

Lemma steady_handle_get_venue_info (arguments : value) : steady (handle_get_venue_info arguments).
Proof. unfold handle_get_venue_info. repeat steady_step. Qed.

(** ** The dispatch table *)

Lemma handlers_lookup (name : string) (handler : value → M value) :
  handlers !! name = Some handler ↔ (name, handler) ∈ handler_list.
Proof.
  unfold handlers. symmetry. apply elem_of_list_to_map.
  simpl. apply (bool_decide_unpack _). by vm_compute.
Qed.

Lemma tool_names :
  map t_name get_tools =
  ["get_team_info"; "get_player_info"; "get_match_details"; "get_ball_by_ball";
   "get_player_performance"; "get_match_officials"; "get_venue_info"].
Proof. reflexivity. Qed.

(** The registered names are the names of the tool descriptors. *)
Lemma handlers_tools (name : string) :
  is_Some (handlers !! name) ↔ name ∈ map t_name get_tools.
Proof.
  rewrite tool_names. split.
  - intros [handler Hh]. apply handlers_lookup in Hh.
    unfold handler_list in Hh. set_unfold.
    destruct_or!; simplify_eq; tauto.
  - set_unfold. intros Hn.
    destruct_or!; subst; try done;
      eexists; apply handlers_lookup; unfold handler_list; set_unfold; tauto.
Qed.

Lemma steady_handlers (name : string) (handler : value → M value) (arguments : value) :
  handlers !! name = Some handler → steady (handler arguments).
Proof.
  intros Hh. apply handlers_lookup in Hh. unfold handler_list in Hh.
  set_unfold.
  destruct_or!; simplify_eq;
    auto using steady_handle_get_team_info, steady_handle_get_player_info,
      steady_handle_get_match_details, steady_handle_get_ball_by_ball,
      steady_handle_get_player_performance, steady_handle_get_match_officials,
      steady_handle_get_venue_info.
Qed.

Lemma steady_handler_of (name : value) (handler : value → M value) (arguments : value) :
  handler_of name = Some handler → steady (handler arguments).
Proof. destruct name; simpl; try done. apply steady_handlers. Qed.

Lemma steady_handle_request (request : value) : steady (handle_request request).
Proof.
  unfold handle_request.
  repeat first
    [ match goal with
      | |- steady (match handler_of ?n with _ => _ end) =>
        let E := fresh "E" in destruct (handler_of n) eqn:E
      end
    | by eapply steady_handler_of
    | steady_step ].
Qed.

#[local] Hint Resolve steady_handle_request : steady.

Lemma steady_main (stdin : list line) : steady (main stdin).
Proof. induction stdin as [|[| |e|request] rest IH]; cbn [main]; repeat steady_step. Qed.

(** ** The [tools/call] branch *)

Ltac run := unfold mbind, M_bind, mret, M_ret, bind, ret, raise; simpl.

(** A call of a registered tool answers with the envelope of the handler's
    outcome on the arguments as they came. *)
Lemma call_registered (request rid name arguments : value) (handler : value → M value) (w : world) :
  is_call request rid name arguments →
  handler_of name = Some handler →
  handle_request request w = envelope rid (handler arguments w).
Proof.
  intros (items & params & -> & Hmethod & Hparams & -> & -> & ->) Hh.
  destruct (default VNone (assoc params "name")) as [| | | |s| |] eqn:En; try done.
  unfold handle_request. run. rewrite Hmethod. simpl. rewrite Hparams. simpl.
  rewrite En. unfold hash. simpl. simpl in Hh. rewrite Hh.
  unfold try_except, envelope. by destruct (handler _ w) as [[result|e] w'].
Qed.

(** A call of any other hashable name is answered without running anything. *)
Lemma call_unknown (request rid name arguments : value) (w : world) :
  is_call request rid name arguments →
  hashable name = true →
  handler_of name = None →
  handle_request request w = (Return (Failure rid (-32601) ("Unknown tool: " +:+ py_str name)), w).
Proof.
  intros (items & params & -> & Hmethod & Hparams & -> & -> & ->) Hhash Hh.
  unfold handle_request. run. rewrite Hmethod. simpl. rewrite Hparams. simpl.
  unfold hash. rewrite Hhash. simpl. by rewrite Hh.
Qed.

(** ** Failures of the dispatcher *)

(** C5: when the handler of a registered tool raises an exception [e], the
    dispatcher answers with the failure envelope of code -32603 whose message
    is "Internal error: " followed by [str(e)], under the id of the request;
    and the loop of [main] prints that envelope and goes on with the lines
    that follow. *)
Theorem handler_failure_is_internal_error
    (request rid arguments : value) (name : string) (handler : value → M value)
    (e : exn) (w w' : world) (rest : list line) :
  is_call request rid (VStr name) arguments →
  handlers !! name = Some handler →
  handler arguments w = (Raise e, w') →
  let failure := Failure rid (-32603) ("Internal error: " +:+ exn_str e) in
  handle_request request w = (Return failure, w') ∧
  main (Json request :: rest) w
  = main rest (World (w_engine w') (w_stderr w') (w_stdout w' ++ [failure])).
Proof.
  intros Hcall Hh Hraise failure.
  assert (handle_request request w = (Return failure, w')) as Hr.
  { rewrite (call_registered _ _ _ _ handler w Hcall Hh), Hraise. done. }
  split; [done|].
  cbn [main]. unfold try_except at 1. run. by rewrite Hr.
Qed.



(** ** Determinism *)

(** The answer does not depend on the [id] member of the request. *)
Lemma answer_ignores_id (items1 items2 : list (string * value)) (w : world) :
  (∀ key, key ≠ "id" → assoc items1 key = assoc items2 key) →
  answer (fst (handle_request (VDict items1) w))
  = answer (fst (handle_request (VDict items2) w)).
Proof.
  intros Hsame.
  pose proof (Hsame "method" ltac:(done)) as Hmethod.
  pose proof (Hsame "params" ltac:(done)) as Hparams.
  unfold handle_request. run. rewrite Hmethod, Hparams.
  repeat match goal with
         | |- context [if eq_str ?v ?s then _ else _] => destruct (eq_str v s)
         end; simpl; try done.
  destruct (default (VDict []) (assoc items2 "params")); simpl; try done.
  unfold hash, try_except.
  match goal with
  | |- context [hashable ?n] =>
    destruct (hashable n); simpl; try done;
    destruct (handler_of n) as [handler|]; simpl; try done
  end.
  match goal with
  | |- context [handler ?a ?w0] => by destruct (handler a w0) as [[?|?] ?]
  end.
Qed.

(** C9: two dispatches in a row of requests that differ at most in their
    [id] give the same answer (the same result payload, the same failure or
    the same exception), and neither changes the database; in particular for
    the same [tools/call] request sent twice. *)
Theorem dispatch_twice_same_answer (items1 items2 : list (string * value)) (w : world) :
  (∀ key, key ≠ "id" → assoc items1 key = assoc items2 key) →
  let run1 := handle_request (VDict items1) w in
  let run2 := handle_request (VDict items2) (snd run1) in
  answer (fst run1) = answer (fst run2) ∧
  w_engine (snd run1) = w_engine w ∧
  w_engine (snd run2) = w_engine w.
Proof.
  intros Hsame run1 run2.
  destruct (steady_handle_request (VDict items1) w w) as (_ & Hframe & _);
    [by apply alike_refl|].
  destruct (steady_handle_request (VDict items2) w (snd run1)) as (Hfst & _ & Hframe2);
    [by apply alike_refl|].
  split_and!.
  - unfold run2. rewrite <- Hfst. by apply answer_ignores_id.
  - done.
  - unfold run2. by rewrite Hframe2.
Qed.

(** ** What the handlers read of their arguments *)

Lemma assoc_declared_only (t : tool) (items : list (string * value)) (key : string) :
  declared t key = true → assoc (declared_only t items) key = assoc items key.
Proof.
  intros Hkey. induction items as [|[k v] items IH]; [done|].
  unfold declared_only in *. simpl.
  destruct (String.eqb k key) eqn:E.
  - apply String.eqb_eq in E as ->. rewrite Hkey. simpl. by rewrite String.eqb_refl.
  - destruct (declared t k); simpl; by rewrite ?E.
Qed.

Lemma assoc_snoc (items : list (string * value)) (key k : string) (v : value) :
  assoc (items ++ [(key, v)]) k
  = match assoc items k with
    | Some x => Some x
    | None => if String.eqb key k then Some v else None
    end.
Proof.
  induction items as [|[k' v'] items IH]; simpl; [done|].
  by destruct (String.eqb k' k).
Qed.

Ltac unfold_handlers :=
  cbv delta [handle_get_team_info handle_get_player_info handle_get_match_details
             handle_get_ball_by_ball handle_get_player_performance
             handle_get_match_officials handle_get_venue_info] beta.

(** Each handler depends on its arguments only through the declared
    properties of its tool, each read with its default. *)
Lemma handler_reads (t : tool) (handler : value → M value)
    (items items' : list (string * value)) (w : world) :
  t ∈ get_tools →
  handlers !! t_name t = Some handler →
  (∀ key p, (key, p) ∈ t_properties t → argument items key p = argument items' key p) →
  handler (VDict items) w = handler (VDict items') w.
Proof.
  intros Ht Hh Hargs.
  apply handlers_lookup in Hh. unfold handler_list in Hh.
  assert (Forall (λ kp, argument items kp.1 kp.2 = argument items' kp.1 kp.2) (t_properties t))
    as Hall by (apply Forall_forall; intros [key p]; apply Hargs).
  clear Hargs. unfold get_tools in Ht. set_unfold.
  destruct_or!; simplify_eq; simpl in Hall;
    repeat match goal with
           | E : Forall _ (_ :: _) |- _ => apply Forall_cons in E as [? E]
           end;
    unfold argument, schema_default in *; simpl in *;
    unfold_handlers; run;
    repeat match goal with
           | E : default _ (assoc items _) = _ |- _ => rewrite E; clear E
           end; reflexivity.
Qed.

Lemma registered_tool (t : tool) :
  t ∈ get_tools → ∃ handler, handlers !! t_name t = Some handler.
Proof.
  intros Ht. apply (proj2 (handlers_tools (t_name t))). by apply list_elem_of_fmap_2.
Qed.

Lemma envelope_not_invalid_params (rid : value) (run : result value * world) :
  error_code (fst (envelope rid run)) ≠ Some (-32602).
Proof. by destruct run as [[result|e] w]. Qed.

(** C1 (as the code has it): the dispatcher does not compare the arguments
    with the tool's [inputSchema].  A call of a registered tool always runs
    the handler on the arguments as they came; the handler reads the declared
    properties only, so its outcome is the one on the arguments without the
    undeclared keys; and the answer is never a failure of code -32602. *)
Theorem undeclared_arguments_are_ignored
    (request rid : value) (t : tool) (items : list (string * value)) (w : world) :
  t ∈ get_tools →
  is_call request rid (VStr (t_name t)) (VDict items) →
  ∃ handler,
    handlers !! t_name t = Some handler ∧
    handle_request request w = envelope rid (handler (VDict items) w) ∧
    handler (VDict items) w = handler (VDict (declared_only t items)) w ∧
    error_code (fst (handle_request request w)) ≠ Some (-32602).
Proof.
  intros Ht Hcall. destruct (registered_tool t Ht) as [handler Hh].
  exists handler.
  assert (handle_request request w = envelope rid (handler (VDict items) w)) as Hr
    by apply (call_registered _ _ _ _ handler w Hcall Hh).
  split_and!; [done|done| |rewrite Hr; apply envelope_not_invalid_params].
  apply (handler_reads t); [done|done|].
  intros key p Hkey. unfold argument. rewrite assoc_declared_only; [done|].
  apply bool_decide_eq_true. apply list_elem_of_fmap. by exists (key, p).
Qed.

(** No required property has a default of its own. *)
Lemma required_default (t : tool) (required : list string) (key : string) (p : property) :
  t ∈ get_tools →
  t_required t = Some required →
  key ∈ required →
  (key, p) ∈ t_properties t →
  schema_default p = VNone.
Proof.
  unfold get_tools. intros Ht Hreq Hkey Hp.
  repeat (apply elem_of_cons in Ht as [->|Ht]; [simpl in *; simplify_eq|]);
    try by apply elem_of_nil in Ht.
  all: apply list_elem_of_singleton in Hkey as ->.
  all: repeat (apply elem_of_cons in Hp as [Hp|Hp]; [by simplify_eq|]).
  all: by apply elem_of_nil in Hp.
Qed.

(** C2 (as the code has it): the [required] list of a schema is not
    enforced.  When a required argument is absent the handler runs all the
    same and reads it as [None], as if the request had carried an explicit
    null; the answer is never a failure of code -32602. *)
Theorem missing_required_argument_reads_None
    (request rid : value) (t : tool) (required : list string) (key : string)
    (items : list (string * value)) (w : world) :
  t ∈ get_tools →
  t_required t = Some required →
  key ∈ required →
  assoc items key = None →
  is_call request rid (VStr (t_name t)) (VDict items) →
  ∃ handler,
    handlers !! t_name t = Some handler ∧
    handle_request request w = envelope rid (handler (VDict items) w) ∧
    handler (VDict items) w = handler (VDict (items ++ [(key, VNone)])) w ∧
    error_code (fst (handle_request request w)) ≠ Some (-32602).
Proof.
  intros Ht Hreq Hkey Hnone Hcall. destruct (registered_tool t Ht) as [handler Hh].
  exists handler.
  assert (handle_request request w = envelope rid (handler (VDict items) w)) as Hr
    by apply (call_registered _ _ _ _ handler w Hcall Hh).
  split_and!; [done|done| |rewrite Hr; apply envelope_not_invalid_params].
  apply (handler_reads t); [done|done|].
  intros k p Hk. unfold argument. rewrite assoc_snoc.
  destruct (assoc items k) as [v|] eqn:Ek; [done|]. simpl.
  destruct (String.eqb key k) eqn:E; [|done].
  apply String.eqb_eq in E as <-.
  by rewrite (required_default t required key p).
Qed.

(** ** Faults of the store *)

Lemma execute_query_fault (query : statement) (params : list value) (message : string) (w : world) :
  w_engine w query params = Fault (Exn Sqlite3Error message) →
  execute_query query params w
  = (Return [], World (w_engine w) (w_stderr w ++ ["Database error: " +:+ message]) (w_stdout w)).
Proof. intros E. unfold execute_query, try_except, fetchall. by rewrite E. Qed.

Lemma execute_query_no_rows (query : statement) (params : list value) (w : world) :
  w_engine w query params = Rows [] → execute_query query params w = (Return [], w).
Proof. intros E. unfold execute_query, try_except, fetchall. by rewrite E. Qed.

(** Over a database without rows every handler returns. *)
Lemma handlers_return_on_no_rows (name : string) (handler : value → M value)
    (items : list (string * value)) (w : world) :
  handlers !! name = Some handler →
  (∀ query params, w_engine w query params = Rows []) →
  ∃ result, handler (VDict items) w = (Return result, w).
Proof.
  intros Hh Hempty. apply handlers_lookup in Hh. unfold handler_list in Hh.
  set_unfold. destruct_or!; simplify_eq; unfold_handlers; run;
    repeat first
      [ rewrite execute_query_no_rows by apply Hempty
      | match goal with |- context [if ?b then _ else _] => destruct b end ];
    simpl; by eexists.
Qed.

(** C3 (as the code has it): a [sqlite3.Error] raised while a statement runs
    is caught in [execute_query], reported on stderr, and the statement counts
    as having returned no rows.  The answer to a call of a registered tool is
    therefore the one over the store where the faulting statements return no
    rows; when every statement faults it is a success envelope, not a failure
    of code -32603. *)
Theorem sqlite_fault_counts_as_no_rows
    (request rid : value) (name : string) (items : list (string * value)) (w : world) :
  is_call request rid (VStr name) (VDict items) →
  is_Some (handlers !! name) →
  (∀ query params message,
     w_engine w query params = Fault (Exn Sqlite3Error message) →
     execute_query query params w
     = (Return [], World (w_engine w) (w_stderr w ++ ["Database error: " +:+ message])
                         (w_stdout w))) ∧
  fst (handle_request request w)
  = fst (handle_request request (World (quiet (w_engine w)) (w_stderr w) (w_stdout w))) ∧
  ((∀ query params, ∃ message, w_engine w query params = Fault (Exn Sqlite3Error message)) →
   ∃ result, fst (handle_request request w) = Return (Success rid (TextContent result))).
Proof.
  intros Hcall [handler Hh]. split_and!.
  - intros query params message. apply execute_query_fault.
  - apply steady_handle_request, alike_quiet.
  - intros Hfaults.
    set (w0 := World (λ _ _, Rows []) (w_stderr w) (w_stdout w)).
    assert (alike w w0) as Hw.
    { intros query params. simpl. by destruct (Hfaults query params) as [message ->]. }
    destruct (steady_handle_request request w w0 Hw) as (-> & _ & _).
    rewrite (call_registered _ _ _ _ handler w0 Hcall Hh).
    destruct (handlers_return_on_no_rows name handler items w0 Hh) as [result ->]; [done|].
    by exists result.
Qed.

(** ** [get_player_performance]: the blocks of the result *)

#[local] Arguments in_strs : simpl never.

Lemma assoc_is_Some (items : list (string * value)) (key : string) :
  is_Some (assoc items key) → key ∈ map fst items.
Proof.
  induction items as [|[k v] items IH]; simpl; [by intros [? ?]|].
  destruct (String.eqb k key) eqn:E.
  - apply String.eqb_eq in E as ->. intros _. apply elem_of_cons. by left.
  - intros Hs. apply elem_of_cons. right. by apply IH.
Qed.

Lemma in_strs_two (v : value) (s1 s2 : string) :
  in_strs v [s1; s2] = true ↔ v = VStr s1 ∨ v = VStr s2.
Proof.
  unfold in_strs. simpl. rewrite orb_false_r, orb_true_iff.
  destruct v; simpl; try (split; [intros [|]; done | intros [|]; done]).
  rewrite !String.eqb_eq. split; intros [|]; simplify_eq; auto.
Qed.

Lemma execute_query_returns (query : statement) (params : list value) (w : world) :
  (∀ e, w_engine w query params = Fault e → is_sqlite3_error e = true) →
  ∃ rows w', execute_query query params w = (Return rows, w') ∧ w_engine w' = w_engine w.
Proof.
  intros Hfault. unfold execute_query, try_except, fetchall.
  destruct (w_engine w query params) as [rows|e] eqn:E; [by eexists _, _|].
  rewrite (Hfault e eq_refl). by eexists _, _.
Qed.

(** C7: the [performance] mapping of a result has a [batting] block exactly
    when [stat_type] is 'batting' or 'all', a [bowling] block exactly when it
    is 'bowling' or 'all', and no other key; [stat_type] is 'all' when the
    argument is absent.  So 'bowling' gives the [bowling] key alone, and
    'fielding' gives the empty mapping, without a statement being run.  The
    handler returns whenever the store raises nothing but [sqlite3.Error]s. *)
Theorem performance_blocks_follow_stat_type (items : list (string * value)) (w : world) :
  let stat_type := default (VStr "all") (assoc items "stat_type") in
  (∀ result w',
     handle_get_player_performance (VDict items) w = (Return result, w') →
     ∃ performance,
       field result "stat_type" = Some stat_type ∧
       field result "performance" = Some (VDict performance) ∧
       (is_Some (assoc performance "batting")
        ↔ stat_type = VStr "batting" ∨ stat_type = VStr "all") ∧
       (is_Some (assoc performance "bowling")
        ↔ stat_type = VStr "bowling" ∨ stat_type = VStr "all") ∧
       (∀ key, is_Some (assoc performance key) → key = "batting" ∨ key = "bowling")) ∧
  ((∀ query params e, w_engine w query params = Fault e → is_sqlite3_error e = true) →
   ∃ result w', handle_get_player_performance (VDict items) w = (Return result, w')) ∧
  (stat_type = VStr "fielding" →
   handle_get_player_performance (VDict items) w
   = (Return (VDict [("player_name", default VNone (assoc items "player_name"));
                     ("match_id", default VNone (assoc items "match_id"));
                     ("stat_type", VStr "fielding");
                     ("performance", VDict [])]), w)).
Proof.
  intros stat_type. unfold handle_get_player_performance. run. fold stat_type.
  split_and!.
  - intros result w'.
    destruct (in_strs stat_type ["batting"; "all"]) eqn:Ebat;
      destruct (in_strs stat_type ["bowling"; "all"]) eqn:Ebowl; simpl;
      repeat match goal with
             | |- context [execute_query ?q ?p ?w0] =>
               destruct (execute_query q p w0) as [[?|?] ?]; simpl; try done
             end;
      intros ?; simplify_eq; eexists;
      (split_and!;
       [done|done|rewrite <- in_strs_two, Ebat|rewrite <- in_strs_two, Ebowl
       |intros key Hkey%assoc_is_Some; simpl in Hkey; set_unfold; tauto]);
      simpl; split; first [done | by intros [? ?] | by eexists].
  - intros Hfault.
    destruct (in_strs stat_type ["batting"; "all"]);
      destruct (in_strs stat_type ["bowling"; "all"]); simpl;
      repeat match goal with
             | |- context [execute_query ?q ?p ?w0] =>
               let Hf := fresh in
               destruct (execute_query_returns q p w0) as (? & ? & -> & Hf);
                 [intros ?;
                  repeat match goal with E : w_engine _ = w_engine _ |- _ => rewrite E end;
                  apply Hfault|]; simpl
             end;
      by eexists _, _.
  - intros ->. done.
Qed.

(** ** [get_ball_by_ball]: which filters are applied *)



(** ** [get_ball_by_ball]: order of the deliveries, count of the overs *)














(** ** [get_player_performance]: rates over no deliveries *)












End Properties.

(** * More of the dispatcher and of the loop *)

Section Dispatcher.
Context `{Float64} `{Unicode}.

Ltac exec := unfold mbind, M_bind, mret, M_ret, bind, ret, raise; simpl.

(** ** Methods *)

Lemma eq_str_true (v : value) (s : string) : eq_str v s = true ↔ v = VStr s.
Proof.
  destruct v; simpl; try (split; done).
  rewrite String.eqb_eq. split; [by intros ->|by intros [= ->]].
Qed.

Lemma eq_str_false (v : value) (s : string) : v ≠ VStr s → eq_str v s = false.
Proof. intros Hv. apply not_true_is_false. by rewrite eq_str_true. Qed.

(** X1: a request is answered with the failure envelope of code -32601 and
    message [Unknown method: <method>], under its [id] and with the world
    left as it was, exactly when its [method] is none of the five the
    dispatcher knows (absent, not a string, or another string). *)
Theorem unknown_method_is_not_found (items : list (string * value)) (w : world) :
  let method := default VNone (assoc items "method") in
  handle_request (VDict items) w
  = (Return (Failure (default VNone (assoc items "id")) (-32601)
               ("Unknown method: " +:+ py_str method)), w)
  ↔ ∀ m, m ∈ methods → method ≠ VStr m.
Proof.
  intros method. split.
  - intros Hr m Hin Hm. revert Hr. unfold handle_request. exec. fold method. rewrite Hm.
    unfold methods in Hin. set_unfold. destruct_or!; subst m; simpl; try done.
    destruct (default (VDict []) (assoc items "params")); simpl; try done.
    unfold hash, try_except.
    match goal with
    | |- context [hashable ?n] =>
      destruct (hashable n); simpl; try done;
      destruct (handler_of n) as [handler|]; simpl; [|done]
    end.
    match goal with
    | |- context [handler ?a ?w0] => by destruct (handler a w0) as [[?|?] ?]
    end.
  - intros Hm. unfold handle_request. exec. fold method.
    rewrite !eq_str_false; [done|..]; apply Hm; unfold methods; set_solver.
Qed.

(** X2: every envelope [handle_request] returns for an object carries the
    [id] of the request, [None] when the request has none: success or
    failure, whatever the method and whatever the handler did. *)
Theorem response_echoes_id (items : list (string * value)) (w w' : world) (r : response) :
  handle_request (VDict items) w = (Return r, w') →
  response_id r = default VNone (assoc items "id").
Proof.
  unfold handle_request. exec.
  repeat match goal with
         | |- context [if eq_str ?v ?s then _ else _] => destruct (eq_str v s)
         end; simpl; try by intros [= <- _].
  destruct (default (VDict []) (assoc items "params")); simpl; try done.
  unfold hash, try_except.
  match goal with
  | |- context [hashable ?n] =>
    destruct (hashable n); simpl; try done;
    destruct (handler_of n) as [handler|]; simpl; [|by intros [= <- _]]
  end.
  match goal with
  | |- context [handler ?a ?w0] =>
    destruct (handler a w0) as [[?|?] ?]; simpl; by intros [= <- _]
  end.
Qed.

(** X12: the only error codes of the dispatcher are -32601 and -32603, and
    -32603 is given to [tools/call] requests only: no request is answered
    with -32600, -32602 or -32700 by [handle_request]. *)
Theorem failures_are_not_found_or_internal (request : value) (w : world) (code : Z) :
  error_code (fst (handle_request request w)) = Some code →
  code = -32601 ∨
  (code = -32603 ∧ ∃ items, request = VDict items ∧ assoc items "method" = Some (VStr "tools/call")).
Proof.
  destruct request as [| | | | | |items]; try done.
  unfold handle_request. exec.
  destruct (eq_str _ "initialize"); [done|].
  destruct (eq_str _ "tools/list"); [done|].
  destruct (eq_str _ "tools/call") eqn:E3.
  - apply eq_str_true in E3.
    assert (assoc items "method" = Some (VStr "tools/call")) as Hm
      by (destruct (assoc items "method"); by simplify_eq/=).
    destruct (default (VDict []) (assoc items "params")); simpl; try done.
    unfold hash, try_except.
    match goal with
    | |- context [hashable ?n] =>
      destruct (hashable n); simpl; try done;
      destruct (handler_of n) as [handler|]; simpl; [|intros [= <-]; by left]
    end.
    match goal with
    | |- context [handler ?a ?w0] =>
      destruct (handler a w0) as [[?|?] ?]; simpl; [done|]
    end.
    intros [= <-]. right. split; [done|]. by exists items.
  - destruct (eq_str _ "resources/list"); [done|].
    destruct (eq_str _ "prompts/list"); [done|].
    simpl. intros [= <-]. by left.
Qed.

(** X3: [handle_request] returns an envelope exactly on the readable
    requests: objects, whose [params] is an object with a hashable [name]
    when the method is [tools/call].  On any other JSON value it raises. *)
Theorem handle_request_returns_iff_readable (request : value) (w : world) :
  (∃ r w', handle_request request w = (Return r, w')) ↔ readable request = true.
Proof.
  destruct request as [| | | | | |items];
    try (split; [intros (r & w' & Hr); discriminate Hr|done]).
  unfold handle_request, readable. exec.
  destruct (eq_str _ "initialize") eqn:E1.
  { apply eq_str_true in E1 as ->. simpl. split; [done|by eexists _, _]. }
  destruct (eq_str _ "tools/list") eqn:E2.
  { apply eq_str_true in E2 as ->. simpl. split; [done|by eexists _, _]. }
  destruct (eq_str _ "tools/call") eqn:E3.
  - destruct (default (VDict []) (assoc items "params")) as [| | | | | |params]; simpl;
      try (split; [intros (r & w' & Hr); discriminate Hr|done]).
    unfold hash, try_except.
    destruct (hashable _); simpl; [|split; [intros (r & w' & Hr); discriminate Hr|done]].
    split; [done|intros _].
    destruct (handler_of _) as [handler|]; simpl; [|by eexists _, _].
    match goal with
    | |- context [handler ?a ?w0] => destruct (handler a w0) as [[?|?] ?]; by eexists _, _
    end.
  - split; [done|intros _].
    repeat match goal with
           | |- context [if eq_str ?v ?s then _ else _] => destruct (eq_str v s)
           end; by eexists _, _.
Qed.

(** X4: on a request that is not readable [handle_request] raises an
    [AttributeError] or a [TypeError] and leaves the world alone; [main]
    prints the failure envelope of code -32603 with the [id] [None], even if
    the request had an [id], and goes on with the next line. *)
Theorem unreadable_request_answered_without_id
    (request : value) (w : world) (rest : list line) :
  readable request = false →
  ∃ e,
    handle_request request w = (Raise e, w) ∧
    (exn_kind e = AttributeError ∨ exn_kind e = TypeError) ∧
    main (Json request :: rest) w
    = main rest (World (w_engine w) (w_stderr w)
                       (w_stdout w ++ [Failure VNone (-32603) ("Internal error: " +:+ exn_str e)])).
Proof.
  intros Hread.
  assert (∃ e, handle_request request w = (Raise e, w) ∧
               (exn_kind e = AttributeError ∨ exn_kind e = TypeError)) as (e & He & Hkind).
  { destruct request as [| | | | | |items]; try by (eexists; split; [reflexivity|by left]).
    unfold handle_request, readable in *. exec.
    destruct (eq_str _ "tools/call") eqn:E3; [|done].
    apply eq_str_true in E3 as ->. simpl.
    destruct (default (VDict []) (assoc items "params")) as [| | | | | |params]; simpl;
      try by (eexists; split; [reflexivity|by left]).
    unfold hash. simpl in Hread. rewrite Hread. simpl.
    eexists; split; [reflexivity|by right]. }
  exists e. split_and!; [done|done|].
  cbn [main]. unfold try_except at 1. exec. by rewrite He.
Qed.

(** ** What a dispatch writes *)

Lemma quiet_ret {A} (a : A) : quiet_run (mret a).
Proof. intros w. split_and!; [done|done|]. exists []. by rewrite app_nil_r. Qed.

Lemma quiet_raise {A} (e : exn) : quiet_run (@raise _ A e).
Proof. intros w. split_and!; [done|done|]. exists []. by rewrite app_nil_r. Qed.

Lemma quiet_bind {A B} (m : M A) (k : A → M B) :
  quiet_run m → (∀ a, quiet_run (k a)) → quiet_run (m ≫= k).
Proof.
  intros Hm Hk w. destruct (Hm w) as (E & O & log & L & Hlog).
  unfold mbind, M_bind, bind.
  destruct (m w) as [[a|e] w1]; simpl in *; [|by eauto].
  destruct (Hk a w1) as (E' & O' & log' & L' & Hlog').
  split_and!; [congruence|congruence|].
  exists (log ++ log'). rewrite L', L, app_assoc. split; [done|].
  apply Forall_app. split; [done|]. by rewrite <- E.
Qed.

Lemma quiet_try {A} (body : M A) (catches : exn → bool) (handler : exn → M A) :
  quiet_run body → (∀ e, quiet_run (handler e)) → quiet_run (try_except body catches handler).
Proof.
  intros Hm Hk w. destruct (Hm w) as (E & O & log & L & Hlog).
  unfold try_except.
  destruct (body w) as [[a|e] w1]; simpl in *; [by eauto|].
  destruct (catches e); [|by eauto].
  destruct (Hk e w1) as (E' & O' & log' & L' & Hlog').
  split_and!; [congruence|congruence|].
  exists (log ++ log'). rewrite L', L, app_assoc. split; [done|].
  apply Forall_app. split; [done|]. by rewrite <- E.
Qed.

Lemma quiet_get (d : value) (key : string) (fallback : value) : quiet_run (get d key fallback).
Proof. destruct d; first [apply quiet_ret | apply quiet_raise]. Qed.

Lemma quiet_item (r : row) (key : string) : quiet_run (item r key).
Proof. unfold item. destruct (assoc r key); [apply quiet_ret | apply quiet_raise]. Qed.

Lemma quiet_hash (v : value) : quiet_run (hash v).
Proof. unfold hash. destruct (hashable v); [apply quiet_ret | apply quiet_raise]. Qed.

Lemma quiet_execute_query (query : statement) (params : list value) :
  quiet_run (execute_query query params).
Proof.
  intros w. unfold execute_query, try_except, fetchall.
  destruct (w_engine w query params) as [rows|[kind message]] eqn:E.
  - split_and!; [done|done|]. exists []. by rewrite app_nil_r.
  - destruct kind; simpl;
      try (split_and!; [done|done|]; exists []; by rewrite app_nil_r).
    split_and!; [done|done|]. eexists. split; [done|].
    constructor; [|done]. by exists query, params, message.
Qed.

Create HintDb quiet.
#[local] Hint Resolve quiet_ret quiet_raise quiet_get quiet_item quiet_hash
  quiet_execute_query : quiet.

Ltac quiet_step :=
  first
    [ solve [auto with quiet]
    | apply quiet_bind; [|intros ?]
    | apply quiet_try; [|intros ?]
    | match goal with
      | |- quiet_run (if ?b then _ else _) => destruct b
      | |- quiet_run (match ?x with _ => _ end) => destruct x
      end ].

Lemma quiet_overs_set (results : list row) (seen : list (value * value)) :
  quiet_run (overs_set results seen).
Proof.
  revert seen. induction results as [|r rest IH]; intros seen; simpl; [auto with quiet|].
  repeat quiet_step.
Qed.
#[local] Hint Resolve quiet_overs_set : quiet.









(** ** The loop *)



(** ** The tools listed and the tools called *)

(** X7: the tools a client can call are exactly the tools [tools/list]
    advertises: a [tools/call] with a hashable [name] fails with code -32601
    if and only if the name is the name of no tool of [get_tools]. *)
Theorem not_found_iff_not_listed (request rid name arguments : value) (w : world) :
  is_call request rid name arguments →
  hashable name = true →
  error_code (fst (handle_request request w)) = Some (-32601)
  ↔ ∀ t, t ∈ get_tools → name ≠ VStr (t_name t).
Proof.
  intros Hcall Hhash. destruct (handler_of name) as [handler|] eqn:Hh.
  - rewrite (call_registered _ _ _ _ handler w Hcall Hh).
    split.
    + by destruct (handler arguments w) as [[result|e] w'].
    + intros Hname. destruct name as [| | | |s| |]; try done. simpl in Hh.
      assert (s ∈ map t_name get_tools) as (t & -> & Ht)%list_elem_of_fmap
        by (apply handlers_tools; by eexists).
      by destruct (Hname t Ht).
  - rewrite (call_unknown _ _ _ _ w Hcall Hhash Hh). simpl. split; [intros _|done].
    intros t Ht ->. simpl in Hh.
    assert (is_Some (handlers !! t_name t)) as [handler Hs]
      by (apply handlers_tools; by apply list_elem_of_fmap_2).
    by rewrite Hs in Hh.
Qed.

(** ** Filters that are given and empty *)

#[local] Arguments truthy : simpl never.

(** X8: an optional filter given with a falsy value (an empty string, 0,
    [False], [None], an empty list or object) is no filter: the handler
    runs as it does on the arguments without that key. *)
Theorem falsy_filter_is_no_filter
    (name key : string) (handler : value → M value)
    (items : list (string * value)) (v : value) (w : world) :
  (name, key) ∈ optional_filters →
  handlers !! name = Some handler →
  assoc items key = None →
  truthy v = false →
  handler (VDict (items ++ [(key, v)])) w = handler (VDict items) w.
Proof.
  intros Hin Hh Hnone Hv.
  apply handlers_lookup in Hh. unfold handler_list in Hh. unfold optional_filters in Hin.
  set_unfold.
  destruct Hh as [Hh|[Hh|[Hh|[Hh|[Hh|[Hh|[Hh|[]]]]]]]]; simplify_eq;
    destruct_or!; simplify_eq;
    cbv delta [handle_get_team_info handle_get_player_info handle_get_match_details
               handle_get_ball_by_ball handle_get_player_performance
               handle_get_match_officials handle_get_venue_info] beta;
    exec; rewrite !assoc_snoc, Hnone; simpl;
    repeat match goal with
           | |- context [assoc items ?k] => destruct (assoc items k)
           end; simpl;
    unfold ball_by_ball_filters, append_if;
    rewrite ?Hv; change (truthy VNone) with false; reflexivity.
Qed.

(** ** [get_ball_by_ball] over the tables *)

Lemma bind_parameter_int (index n : Z) :
  fits (VInt n) = true → bind_parameter index (VInt n) = inr (Integer n).
Proof. simpl. by intros ->. Qed.




Lemma filter_ext_fst {A B} (f g : A → bool) (l : list (A * B)) :
  (∀ a, f a = g a) → List.filter (λ x, f (fst x)) l = List.filter (λ x, g (fst x)) l.
Proof. intros Hfg. apply List.filter_ext. intros [a b]. apply Hfg. Qed.





(** ** [get_player_performance] over the table *)










(** ** Parameters and placeholders *)

Lemma bound_ret {A} (a : A) : bound_run (mret a).
Proof. by intros w engine' _. Qed.

Lemma bound_raise {A} (e : exn) : bound_run (@raise _ A e).
Proof. by intros w engine' _. Qed.

Lemma bound_bind {A B} (m : M A) (k : A → M B) :
  bound_run m → (∀ a, bound_run (k a)) → bound_run (m ≫= k).
Proof.
  intros Hm Hk w engine' Hc. destruct (Hm w engine' Hc) as (R & W & E).
  unfold mbind, M_bind, bind.
  destruct (m w) as [r w1], (m (rebased engine' w)) as [r' w1']; simpl in *. subst r' w1'.
  destruct r as [a|e]; [|done].
  rewrite <- E in Hc. destruct (Hk a w1 engine' Hc) as (R' & W' & E').
  split_and!; [done|done|congruence].
Qed.

Lemma bound_try {A} (body : M A) (catches : exn → bool) (handler : exn → M A) :
  bound_run body → (∀ e, bound_run (handler e)) → bound_run (try_except body catches handler).
Proof.
  intros Hm Hk w engine' Hc. destruct (Hm w engine' Hc) as (R & W & E).
  unfold try_except.
  destruct (body w) as [r w1], (body (rebased engine' w)) as [r' w1']; simpl in *. subst r' w1'.
  destruct r as [a|e]; [done|]. destruct (catches e); [|done].
  rewrite <- E in Hc. destruct (Hk e w1 engine' Hc) as (R' & W' & E').
  split_and!; [done|done|congruence].
Qed.

Lemma bound_get (d : value) (key : string) (fallback : value) : bound_run (get d key fallback).
Proof. destruct d; first [apply bound_ret | apply bound_raise]. Qed.

Lemma bound_item (r : row) (key : string) : bound_run (item r key).
Proof. unfold item. destruct (assoc r key); [apply bound_ret | apply bound_raise]. Qed.

Lemma bound_hash (v : value) : bound_run (hash v).
Proof. unfold hash. destruct (hashable v); [apply bound_ret | apply bound_raise]. Qed.

Lemma bound_execute_query (query : statement) (params : list value) :
  length params = placeholders query → bound_run (execute_query query params).
Proof.
  intros Hn w engine' Hc. unfold execute_query, try_except, fetchall. simpl.
  rewrite <- (Hc query params Hn).
  destruct (w_engine w query params) as [rows|e]; [done|].
  by destruct (is_sqlite3_error e).
Qed.

Create HintDb bound.
#[local] Hint Resolve bound_ret bound_raise bound_get bound_item bound_hash : bound.

Ltac bound_step :=
  first
    [ solve [auto with bound]
    | apply bound_execute_query;
      unfold ball_by_ball_filters, append_if;
      repeat match goal with |- context [if ?b then _ else _] => destruct b end;
      reflexivity
    | apply bound_bind; [|intros ?]
    | apply bound_try; [|intros ?]
    | match goal with
      | |- bound_run (if ?b then _ else _) => destruct b
      | |- bound_run (match ?x with _ => _ end) => destruct x
      end ].

Lemma bound_overs_set (results : list row) (seen : list (value * value)) :
  bound_run (overs_set results seen).
Proof.
  revert seen. induction results as [|r rest IH]; intros seen; simpl; [auto with bound|].
  repeat bound_step.
Qed.
#[local] Hint Resolve bound_overs_set : bound.

Lemma bound_handlers (name : string) (handler : value → M value) (arguments : value) :
  handlers !! name = Some handler → bound_run (handler arguments).
Proof.
  intros Hh. apply handlers_lookup in Hh. unfold handler_list in Hh. set_unfold.
  destruct_or!; simplify_eq;
    cbv delta [handle_get_team_info handle_get_player_info handle_get_match_details
               handle_get_ball_by_ball handle_get_player_performance
               handle_get_match_officials handle_get_venue_info] beta;
    repeat bound_step.
Qed.

Lemma bound_handler_of (name : value) (handler : value → M value) (arguments : value) :
  handler_of name = Some handler → bound_run (handler arguments).
Proof. destruct name; simpl; try done. apply bound_handlers. Qed.

(** X11: every statement a dispatch executes carries exactly as many
    parameters as its text has placeholders.  Hence over two engines that
    agree on the statements so run (whatever they do with a statement given
    too few or too many parameters), [handle_request] gives the same result
    and writes the same lines. *)
Theorem statements_carry_their_parameters
    (request : value) (w : world) (engine' : statement → list value → outcome) :
  counted (w_engine w) engine' →
  fst (handle_request request (rebased engine' w)) = fst (handle_request request w) ∧
  snd (handle_request request (rebased engine' w))
  = rebased engine' (snd (handle_request request w)).
Proof.
  intros Hc.
  assert (bound_run (handle_request request)) as Hb.
  { unfold handle_request.
    repeat first
      [ match goal with
        | |- bound_run (match handler_of ?n with _ => _ end) =>
          let E := fresh "E" in destruct (handler_of n) eqn:E
        end
      | by eapply bound_handler_of
      | bound_step ]. }
  destruct (Hb w engine' Hc) as (R & W & _). by split.
Qed.

End Dispatcher.

(** * The loader *)

Section Loading.
Context `{Float64} `{Unicode}.

(** ** Steps of the script *)

Lemma bind_lift {A B} (x : crash + A) (k : A → L B) (s : session) :
  (lift x ≫= k) s = match x with inl e => (inl e, s) | inr a => k a s end.
Proof. unfold mbind, L_bind, lift. by destruct x. Qed.

#[local] Instance pending_preorder : PreOrder pending.
Proof.
  split.
  - by intros s.
  - intros s1 s2 s3 [C1 P1] [C2 P2]. split; congruence.
Qed.

#[local] Instance appends_preorder : PreOrder appends.
Proof.
  split.
  - intros s. split_and!; [reflexivity|done|]. exists []. by rewrite app_nil_r.
  - intros s1 s2 s3 (P1 & M1 & new1 & D1 & N1) (P2 & M2 & new2 & D2 & N2).
    split_and!; [by etrans|congruence|].
    exists (new1 ++ new2). split; [by rewrite D2, D1, app_assoc|auto].
Qed.

#[local] Instance loads_preorder : PreOrder loads.
Proof.
  split.
  - intros s. split_and!; [done| |done|done]. exists []. by rewrite app_nil_r.
  - intros s1 s2 s3 (C1 & (new1 & D1 & N1) & U1 & I1) (C2 & (new2 & D2 & N2) & U2 & I2).
    split_and!; [congruence| |auto|auto].
    exists (new1 ++ new2). split; [by rewrite D2, D1, app_assoc|auto].
Qed.

Lemma steps_ret {A} (R : relation session) `{!Reflexive R} (a : A) : steps R (mret a).
Proof. intros s. reflexivity. Qed.

Lemma steps_lift {A} (R : relation session) `{!Reflexive R} (x : crash + A) : steps R (lift x).
Proof. intros s. reflexivity. Qed.

Lemma steps_bind {A B} (R : relation session) `{!Transitive R} (m : L A) (k : A → L B) :
  steps R m → (∀ a, steps R (k a)) → steps R (m ≫= k).
Proof.
  intros Hm Hk s. unfold mbind, L_bind. specialize (Hm s).
  destruct (m s) as [[e|a] s1]; simpl in *; [done|].
  etrans; [done|apply Hk].
Qed.

Lemma steps_for_each {A} (R : relation session) `{!PreOrder R} (body : A → L unit)
    (xs : list A) :
  (∀ x, steps R (body x)) → steps R (for_each body xs).
Proof.
  intros Hbody. induction xs as [|x xs IH]; simpl.
  - by apply steps_ret, _.
  - apply steps_bind; [apply _|done|done].
Qed.

(** ** Binding *)

Lemma bind_parameters_bound (index : Z) (params : list value) (bound : list sqlval) :
  bind_parameters index params = inr bound → bound = map bound_as params.
Proof.
  revert index bound. induction params as [|v params IH]; intros index bound; simpl.
  - by intros [= <-].
  - destruct (bind_parameter index v) as [e|p] eqn:Ev; [done|].
    destruct (bind_parameters (index + 1) params) as [e|ps] eqn:Eps; [done|].
    intros [= <-]. simpl. rewrite <- (IH _ _ Eps). f_equal.
    destruct v; simpl in Ev; repeat case_match; simplify_eq; try done;
      simpl; by rewrite ?H1.
Qed.

Lemma bind_all_bound (params : list value) (bound : list sqlval) :
  bind_all params = inr bound → bound = map bound_as params.
Proof.
  unfold bind_all. destruct (bind_parameters 1 params) as [e|ps] eqn:E; [done|].
  intros [= <-]. by apply bind_parameters_bound in E.
Qed.

(** ** The deliveries of a file *)

Lemma numbered_snoc (ds : list delivery_record) (r : delivery_record) :
  numbered ds →
  dr_ball r = Integer (Z.of_nat (length (earlier_in_over r ds)) + 1) →
  numbered (ds ++ [r]).
Proof.
  intros Hds Hr i r' Hi.
  destruct (decide (i < length ds)%nat) as [Hlt|Hge].
  - rewrite lookup_app_l in Hi by done. rewrite take_app_le by lia. by apply Hds.
  - rewrite lookup_app_r in Hi by lia.
    destruct (i - length ds)%nat as [|n] eqn:En; [|by destruct n].
    simpl in Hi. injection Hi as <-.
    assert (i = length ds) as -> by lia.
    by rewrite take_app_length.
Qed.

Lemma select_insert_appends (match_id inning batting_team bowling_team over batsman
    non_striker bowler runs_batsman runs_extras runs_total dismissal_kind
    player_dismissed : value) :
  steps appends
    (stored ← select_over [match_id; inning; over];
     let ball := Z.of_nat (length stored) + 1 in
     insert_delivery [match_id; inning; batting_team; bowling_team; over; VInt ball;
                      batsman; non_striker; bowler; runs_batsman; runs_extras; runs_total;
                      dismissal_kind; player_dismissed]).
Proof.
  intros s. unfold mbind, L_bind, select_over.
  destruct (bind_all [match_id; inning; over]) as [e|bound] eqn:E1; [reflexivity|].
  apply bind_all_bound in E1 as ->. cbn [map].
  unfold insert_delivery.
  destruct (bind_all _) as [e|bound] eqn:E2; [reflexivity|].
  apply bind_all_bound in E2 as ->. cbn [map snd].
  split_and!; [done|done|].
  eexists. split; [reflexivity|].
  intros Hds. by apply numbered_snoc.
Qed.

Ltac walk R :=
  repeat first
    [ apply (steps_ret R)
    | apply (steps_lift R)
    | apply select_insert_appends
    | apply (steps_bind R); [|intros ?]
    | apply (steps_for_each R); intros ?
    | match goal with
      | |- steps _ (if ?b then _ else _) => destruct b
      end ].

Lemma load_delivery_appends (match_id : string) (team1 team2 : value) (inning_number : Z)
    (batting_team over delivery : value) :
  steps appends (load_delivery match_id team1 team2 inning_number batting_team over delivery).
Proof. unfold load_delivery. walk appends. Qed.

Lemma load_inning_appends (match_id : string) (team1 team2 : value) (inning_number : Z)
    (inning_data : value) :
  steps appends (load_inning match_id team1 team2 inning_number inning_data).
Proof.
  unfold load_inning. walk appends.
Qed.

(** ** [parse_match] *)

Lemma bind_steps_eq {A B} (m : L A) (k : A → L B) (s : session) :
  steps eq m →
  (m ≫= k) s = match fst (m s) with inl e => (inl e, s) | inr a => k a s end.
Proof.
  intros Hm. unfold mbind, L_bind. specialize (Hm s).
  destruct (m s) as [[e|a] s1]; simpl in *; by subst.
Qed.

Lemma margin_of_steps (outcome : value) : steps eq (margin_of outcome).
Proof. unfold margin_of. walk (@eq session). Qed.

(** The new row takes the place of the rows with its id. *)
Lemma insert_or_replace_match_cases {B} (id : string)
    (date city venue team1 team2 toss_winner toss_decision winner result margin : value)
    (k : unit → L B) (s : session) :
  let run := (insert_or_replace_match [VStr id; date; city; venue; team1; team2; toss_winner;
                                       toss_decision; winner; result; margin] ≫= k) s in
  (∃ e, run = (inl e, s)) ∨
  (∃ row,
     mr_id row = Text id ∧
     run = k tt (Session (committed s)
                   (Tables (List.filter (λ r, negb (text_column_eq (mr_id r) (Text id)))
                                        (tb_matches (current s)) ++ [row])
                           (tb_deliveries (current s)))
                   (printed s))).
Proof.
  intros run. subst run. unfold mbind, L_bind, insert_or_replace_match.
  destruct (bind_all _) as [e|bound] eqn:E; [left; by eexists|].
  apply bind_all_bound in E as ->. cbn [map]. right. eexists. split; [|reflexivity]. done.
Qed.

Lemma parse_match_effect (filepath : string) (content : crash + value) (s : session) :
  let id := Text (fst (splitext (basename filepath))) in
  let s' := snd (parse_match filepath content s) in
  let replaced :=
    ∃ row,
      mr_id row = id ∧
      tb_matches (current s')
      = List.filter (λ r, negb (text_column_eq (mr_id r) id)) (tb_matches (current s)) ++ [row] in
  pending s s' ∧
  (∃ new,
     tb_deliveries (current s') = tb_deliveries (current s) ++ new ∧
     (numbered (tb_deliveries (current s)) → numbered (tb_deliveries (current s')))) ∧
  (tb_matches (current s') = tb_matches (current s) ∨ replaced) ∧
  (fst (parse_match filepath content s) = inr tt → replaced).
Proof.
  assert (∀ e : crash,
            let id := Text (fst (splitext (basename filepath))) in
            let s' := snd (@inl crash unit e, s) in
            let replaced :=
              ∃ row,
                mr_id row = id ∧
                tb_matches (current s')
                = List.filter (λ r, negb (text_column_eq (mr_id r) id)) (tb_matches (current s))
                  ++ [row] in
            pending s s' ∧
            (∃ new,
               tb_deliveries (current s') = tb_deliveries (current s) ++ new ∧
               (numbered (tb_deliveries (current s)) → numbered (tb_deliveries (current s')))) ∧
            (tb_matches (current s') = tb_matches (current s) ∨ replaced) ∧
            (fst (@inl crash unit e, s) = inr tt → replaced)) as Hcrash.
  { intros e. simpl. split_and!; [done| |by left|done]. exists []. by rewrite app_nil_r. }
  unfold parse_match.
  repeat (rewrite bind_lift;
          match goal with
          | |- context [match ?x with inl _ => _ | inr _ => _ end] =>
            destruct x as [?|?]; [apply Hcrash|]
          end).
  rewrite (bind_steps_eq (margin_of _)) by apply margin_of_steps.
  destruct (fst (margin_of _ s)) as [?|margin]; [apply Hcrash|].
  match goal with
  | |- context [(insert_or_replace_match
                   [VStr ?id; ?date; ?city; ?venue; ?team1; ?team2; ?toss_winner;
                    ?toss_decision; ?winner; ?result; ?margin] ≫= ?k) s] =>
    destruct (insert_or_replace_match_cases id date city venue team1 team2 toss_winner
                toss_decision winner result margin k s)
      as [[e ->]|(row & Hid & ->)]; [apply Hcrash|]
  end.
  match goal with
  | |- context [snd (?rest ?s1)] =>
    assert (steps appends rest) as Hrest by (walk appends; apply load_inning_appends);
    destruct (Hrest s1) as ((C & P) & M & new & D & N)
  end.
  simpl in *. split_and!.
  - by split.
  - by exists new.
  - right. exists row. by rewrite M.
  - intros _. exists row. by rewrite M.
Qed.

Lemma match_ids_replace (ms : list match_record) (id : string) :
  match_ids (List.filter (λ r, negb (text_column_eq (mr_id r) (Text id))) ms)
  = filter (λ t, t ≠ id) (match_ids ms).
Proof.
  unfold match_ids. induction ms as [|r ms IH]; [done|].
  cbn [List.filter]. unfold text_column_eq at 1. csimpl.
  destruct (as_text (mr_id r)) as [t|] eqn:Et; csimpl.
  - rewrite filter_cons. destruct (String.eqb_spec t id) as [->|Hne]; csimpl.
    + by rewrite decide_False by (by intros []).
    + rewrite decide_True by done. by rewrite Et, IH.
  - by rewrite Et, IH.
Qed.

Lemma match_ids_snoc (ms : list match_record) (row : match_record) (id : string) :
  mr_id row = Text id → match_ids (ms ++ [row]) = match_ids ms ++ [id].
Proof. intros Hid. unfold match_ids. rewrite omap_app. simpl. by rewrite Hid. Qed.

Lemma parse_match_loads (filepath : string) (content : crash + value) :
  steps loads (parse_match filepath content).
Proof.
  intros s. destruct (parse_match_effect filepath content s) as ((C & _) & D & M & _).
  split_and!; [done|done|..]; destruct M as [->|(row & Hid & ->)]; try done.
  - intros Hu. unfold unique_ids in *.
    rewrite (match_ids_snoc _ _ _ Hid), match_ids_replace.
    apply NoDup_app. split_and!.
    + by apply NoDup_filter.
    + intros t [Hne _]%list_elem_of_filter Ht%list_elem_of_singleton. done.
    + apply NoDup_singleton.
  - intros t Ht. rewrite (match_ids_snoc _ _ _ Hid), match_ids_replace.
    apply elem_of_app. destruct (decide (t = fst (splitext (basename filepath)))) as [->|Hne].
    + right. by apply list_elem_of_singleton.
    + left. by apply list_elem_of_filter.
Qed.

(** ** The loop over the files *)

Lemma print_loads (text : string) : steps loads (print text).
Proof.
  intros s. split_and!; simpl; [done| |done|done]. exists []. by rewrite app_nil_r.
Qed.

Lemma file_loads (file : string * (crash + value)) :
  steps loads (_ ← print ("Loading: " +:+ fst file); parse_match (fst file) (snd file)).
Proof. apply steps_bind; [apply _|apply print_loads|intros _; apply parse_match_loads]. Qed.

Lemma for_each_cons {A} (body : A → L unit) (x : A) (xs : list A) (s : session) :
  for_each body (x :: xs) s
  = match fst (body x s) with
    | inl e => (inl e, snd (body x s))
    | inr _ => for_each body xs (snd (body x s))
    end.
Proof. simpl. unfold mbind, L_bind. by destruct (body x s) as [[e|[]] s1]. Qed.

Lemma for_each_crash {A} (body : A → L unit) (x : A) (xs : list A) (s : session) :
  x ∈ xs → (∀ s0, ∃ e, fst (body x s0) = inl e) → ∃ e, fst (for_each body xs s) = inl e.
Proof.
  intros Hx Hbody. revert s. induction xs as [|y xs IH]; intros s.
  - by apply elem_of_nil in Hx.
  - rewrite for_each_cons. apply elem_of_cons in Hx as [<-|Hx].
    + destruct (Hbody s) as [e ->]. by exists e.
    + destruct (fst (body y s)) as [e|u]; [by exists e|by apply IH].
Qed.

Lemma file_run (file : string * (crash + value)) (s : session) :
  (_ ← print ("Loading: " +:+ fst file); parse_match (fst file) (snd file)) s
  = parse_match (fst file) (snd file)
      (Session (committed s) (current s) (printed s ++ [announce file])).
Proof. reflexivity. Qed.

Lemma files_printed (files : list (string * (crash + value))) (s : session) :
  let run :=
    for_each (λ file, _ ← print ("Loading: " +:+ fst file); parse_match (fst file) (snd file))
             files s in
  match fst run with
  | inr _ => printed (snd run) = printed s ++ map announce files
  | inl _ =>
    ∃ n, (n < length files)%nat ∧
         printed (snd run) = printed s ++ map announce (take (S n) files)
  end.
Proof.
  revert s. induction files as [|file files IH]; intros s.
  - simpl. by rewrite app_nil_r.
  - cbv zeta. rewrite for_each_cons. cbv beta. rewrite file_run.
    destruct (parse_match_effect (fst file) (snd file)
                (Session (committed s) (current s) (printed s ++ [announce file])))
      as ((_ & P) & _).
    destruct (parse_match _ _ _) as [[e|u] s1]; simpl in *.
    + exists 0%nat. split; [lia|]. by rewrite take_0.
    + specialize (IH s1). cbv zeta in IH. rewrite P in IH.
      destruct (fst (for_each _ files s1)) as [e|u'].
      * destruct IH as (n & Hn & IH). exists (S n). split; [lia|].
        by rewrite IH, <- app_assoc.
      * by rewrite IH, <- app_assoc.
Qed.

Lemma files_ids (files : list (string * (crash + value))) (s : session) :
  let run :=
    for_each (λ file, _ ← print ("Loading: " +:+ fst file); parse_match (fst file) (snd file))
             files s in
  fst run = inr tt →
  ∀ file, file ∈ files →
    fst (splitext (basename (fst file))) ∈ match_ids (tb_matches (current (snd run))).
Proof.
  revert s. induction files as [|file files IH]; intros s run Hrun file' Hin.
  - by apply elem_of_nil in Hin.
  - subst run. rewrite for_each_cons in *. cbv beta in *. rewrite file_run in *.
    destruct (parse_match_effect (fst file) (snd file)
                (Session (committed s) (current s) (printed s ++ [announce file])))
      as (_ & _ & _ & Hdone).
    destruct (parse_match _ _ _) as [[e|[]] s1]; simpl in *; [done|].
    apply elem_of_cons in Hin as [->|Hin]; [|by apply IH].
    match goal with
    | |- _ ∈ match_ids (tb_matches (current (snd (for_each ?body files s1)))) =>
      destruct (steps_for_each loads body files file_loads s1) as (_ & _ & _ & Hkeep)
    end.
    apply Hkeep.
    destruct (Hdone eq_refl) as (row & Hid & ->).
    rewrite (match_ids_snoc _ _ _ Hid). apply elem_of_app. right.
    by apply list_elem_of_singleton.
Qed.

Lemma load_all_run (files : list (string * (crash + value))) (s : session) :
  load_all files s
  = let loop :=
      for_each (λ file, _ ← print ("Loading: " +:+ fst file);
                        parse_match (fst file) (snd file))
               files s in
    match fst loop with
    | inl e => (inl e, snd loop)
    | inr _ =>
      (inr tt, Session (current (snd loop)) (current (snd loop))
                       (printed (snd loop) ++ ["âœ… All matches loaded into ipl.db"]))
    end.
Proof.
  unfold load_all. unfold mbind at 1, L_bind at 1.
  by destruct (for_each _ files s) as [[e|[]] s1].
Qed.

Lemma load_data_loads (f : database_file) (files : list (string * (crash + value))) :
  let run := load_data f files in
  ∃ s,
    loads (connect f) s ∧
    match fst run with
    | inr _ => committed (snd run) = current s
    | inl _ => committed (snd run) = create_tables f
    end ∧
    (fst run = inr tt →
     ∀ file, file ∈ files →
       fst (splitext (basename (fst file))) ∈ match_ids (tb_matches (current s))).
Proof.
  intros run. subst run. unfold load_data. rewrite load_all_run. cbv zeta.
  set (body := λ file : string * (crash + value),
                 _ ← print ("Loading: " +:+ fst file); parse_match (fst file) (snd file)).
  pose proof (steps_for_each loads body files file_loads (connect f)) as Hloads.
  pose proof (files_ids files (connect f)) as Hids. cbv zeta in Hids. fold body in Hids.
  exists (snd (for_each body files (connect f))). split; [done|].
  destruct (for_each body files (connect f)) as [[e|[]] s1]; simpl in *.
  - split; [|done]. by destruct Hloads as (-> & _).
  - split; [done|]. intros _. by apply Hids.
Qed.

(** ** The run of the script *)

(** X13: the script commits all or nothing.  When it ends normally it has
    announced every file and printed its last line, and the file holds what
    the connection saw at the end; when a file makes it raise, the file
    holds the two tables with the rows they had before the run, and the
    last line printed announces the file that failed. *)
Theorem load_commits_all_or_nothing
    (f : database_file) (files : list (string * (crash + value))) :
  let run := load_data f files in
  match fst run with
  | inr _ =>
    committed (snd run) = current (snd run) ∧
    printed (snd run) = map announce files ++ ["âœ… All matches loaded into ipl.db"]
  | inl _ =>
    committed (snd run) = create_tables f ∧
    ∃ n, (n < length files)%nat ∧ printed (snd run) = map announce (take (S n) files)
  end.
Proof.
  intros run. subst run. unfold load_data. rewrite load_all_run. cbv zeta.
  set (body := λ file : string * (crash + value),
                 _ ← print ("Loading: " +:+ fst file); parse_match (fst file) (snd file)).
  pose proof (steps_for_each loads body files file_loads (connect f)) as (C & _).
  pose proof (files_printed files (connect f)) as P. cbv zeta in P. fold body in P.
  destruct (for_each body files (connect f)) as [[e|[]] s1]; simpl in *.
  - by split.
  - split; [done|]. by rewrite P.
Qed.

Lemma numbered_order (ds : list delivery_record) (i j : nat) (r r' : delivery_record)
    (match_id : string) (inning over : Z) :
  numbered ds →
  (i < j)%nat →
  ds !! i = Some r →
  ds !! j = Some r' →
  dr_match_id r = Text match_id → dr_inning r = Integer inning → dr_over r = Integer over →
  dr_match_id r' = Text match_id → dr_inning r' = Integer inning → dr_over r' = Integer over →
  ∃ b b', dr_ball r = Integer b ∧ dr_ball r' = Integer b' ∧ 0 < b ∧ b < b'.
Proof.
  intros Hds Hij Hi Hj Hm Hn Ho Hm' Hn' Ho'.
  eexists _, _. split; [by apply Hds|]. split; [by apply Hds|]. split; [lia|].
  unfold earlier_in_over. rewrite Hm, Hn, Ho, Hm', Hn', Ho'.
  assert (take j ds = take i ds ++ r :: drop (S i) (take j ds)) as ->.
  { rewrite <- (take_drop i (take j ds)) at 1. rewrite take_take, Nat.min_l by lia.
    f_equal. apply drop_S. by rewrite lookup_take_lt. }
  rewrite List.filter_app, length_app. cbn [List.filter].
  assert (in_over (Text match_id) (Integer inning) (Integer over) r = true) as ->.
  { unfold in_over, text_column_eq, integer_column_eq. rewrite Hm, Hn, Ho. simpl.
    by rewrite String.eqb_refl, !Z.eqb_refl. }
  simpl. lia.
Qed.

(** X14: the balls of an over are numbered in the order of the file.  If the
    table was numbered before the run (an empty or absent table is), it is
    afterwards, rows are only added after those it had, and of two rows of
    the same match, inning and over the later one has the larger ball
    number: no two deliveries share a position. *)
Theorem balls_are_numbered_in_file_order
    (f : database_file) (files : list (string * (crash + value))) :
  numbered (default [] (f_deliveries f)) →
  let ds := tb_deliveries (committed (snd (load_data f files))) in
  numbered ds ∧
  (∃ new, ds = default [] (f_deliveries f) ++ new) ∧
  ∀ i j r r' match_id inning over,
    (i < j)%nat →
    ds !! i = Some r →
    ds !! j = Some r' →
    dr_match_id r = Text match_id → dr_inning r = Integer inning → dr_over r = Integer over →
    dr_match_id r' = Text match_id → dr_inning r' = Integer inning → dr_over r' = Integer over →
    ∃ b b', dr_ball r = Integer b ∧ dr_ball r' = Integer b' ∧ 0 < b ∧ b < b'.
Proof.
  intros Hf ds.
  assert (numbered ds ∧ ∃ new, ds = default [] (f_deliveries f) ++ new) as [Hds Hnew].
  { subst ds. destruct (load_data_loads f files) as (s & (_ & (new & D & N) & _) & Hc & _).
    simpl in *. destruct (fst (load_data f files)); rewrite Hc.
    - split; [done|]. exists []. by rewrite app_nil_r.
    - split; [by apply N|]. by exists new. }
  split_and!; [done|done|].
  intros i j r r' match_id inning over. by apply numbered_order.
Qed.

(** X15: after a run that ends normally the [matches] table has exactly one
    row for each file, under the name of the file without its extension:
    the ids of the table stay unique, and the id of every file is among
    them, whether the table had a row for that match or not and however
    often the file is listed. *)
Theorem each_file_has_one_match_row
    (f : database_file) (files : list (string * (crash + value))) :
  unique_ids (default [] (f_matches f)) →
  fst (load_data f files) = inr tt →
  let ms := tb_matches (committed (snd (load_data f files))) in
  unique_ids ms ∧
  ∀ file, file ∈ files → fst (splitext (basename (fst file))) ∈ match_ids ms.
Proof.
  intros Hf Hrun ms. subst ms.
  destruct (load_data_loads f files) as (s & (_ & _ & U & _) & Hc & Hids).
  rewrite Hrun in Hc. rewrite Hc. split; [by apply U|by apply Hids].
Qed.

(** ** Files in the layout of Cricsheet *)

Lemma parse_match_cricsheet (filepath : string) (data : value) (s : session) :
  cricsheet_layout data → ∃ e, fst (parse_match filepath (inr data) s) = inl e.
Proof.
  intros (items & name & member & more & rest & -> & Hinnings & Hmember).
  unfold parse_match. rewrite bind_lift.
  repeat (rewrite bind_lift;
          match goal with
          | |- context [match ?x with inl _ => _ | inr _ => _ end] =>
            destruct x as [?|?]; [by eexists|]
          end).
  rewrite (bind_steps_eq (margin_of _)) by apply margin_of_steps.
  destruct (fst (margin_of _ s)) as [?|margin]; [by eexists|].
  match goal with
  | |- context [(insert_or_replace_match
                   [VStr ?id; ?date; ?city; ?venue; ?team1; ?team2; ?toss_winner;
                    ?toss_decision; ?winner; ?result; ?margin] ≫= ?k) s] =>
    destruct (insert_or_replace_match_cases id date city venue team1 team2 toss_winner
                toss_decision winner result margin k s)
      as [[e ->]|(row & Hid & ->)]; [by eexists|]
  end.
  rewrite bind_lift. unfold dict_get. rewrite Hinnings. simpl default.
  rewrite bind_lift. cbn [iterate enumerate]. rewrite for_each_cons. cbn [fst snd].
  rewrite bind_lift. cbn [dict_items]. rewrite for_each_cons. cbn [fst snd].
  unfold load_inning at 1. rewrite bind_lift.
  destruct member; try done; by eexists.
Qed.

(** X16: a file in the layout of Cricsheet, where an entry of [innings] is
    the innings itself ([{"team": ..., "overs": ...}]) and not a mapping
    from a name to it, cannot be loaded: [parse_match] raises on it, so the
    script ends in an exception whenever such a file is among those read,
    and nothing is committed. *)
Theorem cricsheet_layout_is_refused
    (f : database_file) (files : list (string * (crash + value)))
    (filepath : string) (data : value) :
  (filepath, inr data) ∈ files →
  cricsheet_layout data →
  ∃ e,
    fst (load_data f files) = inl e ∧
    committed (snd (load_data f files)) = create_tables f.
Proof.
  intros Hin Hlayout. unfold load_data. rewrite load_all_run. cbv zeta.
  set (body := λ file : string * (crash + value),
                 _ ← print ("Loading: " +:+ fst file); parse_match (fst file) (snd file)).
  pose proof (steps_for_each loads body files file_loads (connect f)) as (C & _).
  destruct (for_each_crash body (filepath, inr data) files (connect f) Hin) as [e He].
  { intros s0. unfold body. rewrite file_run. by apply parse_match_cricsheet. }
  rewrite He. by exists e.
Qed.

(** ** The id of a match *)

Lemma rfind_app (c : ascii) (a b : string) :
  rfind c (a +:+ b)
  = match rfind c b with
    | Some i => Some (String.length a + i)%nat
    | None => rfind c a
    end.
Proof.
  induction a as [|x a IH].
  - change ("" +:+ b) with b. by destruct (rfind c b).
  - change (String x a +:+ b) with (String x (a +:+ b)). cbn [rfind String.length].
    rewrite IH. by destruct (rfind c b).
Qed.

Lemma from_app (a b : string) (n : nat) : from (String.length a + n) (a +:+ b) = from n b.
Proof.
  induction a as [|x a IH]; [done|].
  change (String x a +:+ b) with (String x (a +:+ b)). simpl. apply IH.
Qed.

Lemma upto_app (a b : string) : upto (String.length a) (a +:+ b) = a.
Proof.
  induction a as [|x a IH].
  - change ("" +:+ b) with b. by destruct b.
  - change (String x a +:+ b) with (String x (a +:+ b)). simpl. f_equal. apply IH.
Qed.

(** X17: the id of a match is the name of its file.  For a file
    [<directory>/<name>.json], where the name has no [/] and does not start
    with a dot (as in what [glob] returns for [data/*.json]), the [match_id]
    [parse_match] computes is [<name>], dots inside the name included. *)
Theorem match_id_is_the_file_name (directory name : string) (c : ascii) (rest : string) :
  name = String c rest →
  c ≠ "."%char →
  rfind "/" name = None →
  fst (splitext (basename (directory +:+ "/" +:+ name +:+ ".json"))) = name.
Proof.
  intros Hname Hc Hslash.
  assert (rfind "/" (name +:+ ".json") = None) as Hslash'
    by (by rewrite rfind_app, Hslash).
  assert (basename (directory +:+ "/" +:+ name +:+ ".json") = name +:+ ".json") as ->.
  { unfold basename. rewrite rfind_app.
    change ("/" +:+ name +:+ ".json") with (String "/" (name +:+ ".json")).
    cbn [rfind]. rewrite Hslash'. cbn [Ascii.eqb Bool.eqb].
    replace (S (String.length directory + 0)) with (String.length directory + 1)%nat by lia.
    by rewrite from_app. }
  unfold splitext. rewrite Hslash', rfind_app. cbn [rfind Ascii.eqb Bool.eqb].
  rewrite Nat.add_0_r, Nat.sub_0_r. cbn [from Nat.leb andb].
  rewrite upto_app.
  assert (existsb (λ c0, negb (Ascii.eqb c0 ".")) (list_ascii_of_string name) = true) as ->.
  { subst name. simpl. by destruct (Ascii.eqb_spec c "."). }
  reflexivity.
Qed.

(** ** Two runs over the same files *)

Lemma same_deliveries_refl (s s' : session) : same_deliveries s s' s s'.
Proof. split_and!; [done|done|]. exists [], []. by rewrite !app_nil_r. Qed.

Lemma same_deliveries_trans (s s' t t' u u' : session) :
  same_deliveries s s' t t' → same_deliveries t t' u u' → same_deliveries s s' u u'.
Proof.
  intros (M1 & M1' & new1 & new1' & D1 & D1' & E1) (M2 & M2' & new2 & new2' & D2 & D2' & E2).
  split_and!; [congruence|congruence|].
  exists (new1 ++ new2), (new1' ++ new2').
  rewrite D2, D1, D2', D1', <- !app_assoc, !map_app, E1, E2. done.
Qed.

Lemma alongside_ret {A} (a : A) : alongside (mret a).
Proof. intros s s' a1 a2 t t' [= <- <-] [= <- <-]. split; [done|apply same_deliveries_refl]. Qed.

Lemma alongside_lift {A} (x : crash + A) : alongside (lift x).
Proof.
  intros s s' a1 a2 t t'. unfold lift. intros [= -> <-] [= [= <-] <-].
  split; [done|apply same_deliveries_refl].
Qed.

Lemma bind_normal {A B} (m : L A) (k : A → L B) (s t : session) (b : B) :
  (m ≫= k) s = (inr b, t) → ∃ a s1, m s = (inr a, s1) ∧ k a s1 = (inr b, t).
Proof.
  unfold mbind, L_bind. destruct (m s) as [[e|a] s1]; [done|]. intros Hk. by exists a, s1.
Qed.

Lemma alongside_bind {A B} (m : L A) (k : A → L B) :
  alongside m → (∀ a, alongside (k a)) → alongside (m ≫= k).
Proof.
  intros Hm Hk s s' b b' t t'
    (a & s1 & Hs & Hk1)%bind_normal (a' & s1' & Hs' & Hk1')%bind_normal.
  destruct (Hm _ _ _ _ _ _ Hs Hs') as [<- H1].
  destruct (Hk a _ _ _ _ _ _ Hk1 Hk1') as [<- H2].
  split; [done|by eapply same_deliveries_trans].
Qed.

Lemma alongside_for_each {A} (body : A → L unit) (xs : list A) :
  (∀ x, alongside (body x)) → alongside (for_each body xs).
Proof.
  intros Hbody. induction xs as [|x xs IH]; simpl.
  - apply alongside_ret.
  - by apply alongside_bind.
Qed.

Lemma select_insert_alongside (match_id inning batting_team bowling_team over batsman
    non_striker bowler runs_batsman runs_extras runs_total dismissal_kind
    player_dismissed : value) :
  alongside
    (stored ← select_over [match_id; inning; over];
     let ball := Z.of_nat (length stored) + 1 in
     insert_delivery [match_id; inning; batting_team; bowling_team; over; VInt ball;
                      batsman; non_striker; bowler; runs_batsman; runs_extras; runs_total;
                      dismissal_kind; player_dismissed]).
Proof.
  intros s s' [] [] t t'. unfold mbind, L_bind, select_over.
  destruct (bind_all [match_id; inning; over]) as [e|bound] eqn:E1; [done|].
  apply bind_all_bound in E1 as ->. cbn [map]. unfold insert_delivery.
  destruct (bind_all _) as [e|bound] eqn:E2; [done|].
  apply bind_all_bound in E2 as ->. cbn [map].
  destruct (bind_all _) as [e|bound'] eqn:E3; [done|].
  apply bind_all_bound in E3 as ->. cbn [map].
  intros [= <-] [= <-]. split; [done|]. split_and!; [done|done|].
  eexists [_], [_]. split_and!; reflexivity.
Qed.

Ltac walk2 :=
  repeat first
    [ apply alongside_ret
    | apply alongside_lift
    | apply select_insert_alongside
    | apply alongside_bind; [|intros ?]
    | apply alongside_for_each; intros ?
    | match goal with
      | |- alongside (if ?b then _ else _) => destruct b
      end ].

Lemma load_inning_alongside (match_id : string) (team1 team2 : value) (inning_number : Z)
    (inning_data : value) :
  alongside (load_inning match_id team1 team2 inning_number inning_data).
Proof. unfold load_inning. walk2. Qed.

Lemma computes_ret {A} (a : A) : computes (mret a).
Proof. by exists (inr a). Qed.

Lemma computes_lift {A} (x : crash + A) : computes (lift x).
Proof. by exists x. Qed.

Lemma computes_bind {A B} (m : L A) (k : A → L B) :
  computes m → (∀ a, computes (k a)) → computes (m ≫= k).
Proof.
  intros [[e|a] Hm] Hk.
  - exists (inl e). intros s. unfold mbind, L_bind. by rewrite Hm.
  - destruct (Hk a) as [r Hr]. exists r. intros s. unfold mbind, L_bind. by rewrite Hm.
Qed.

Lemma margin_of_computes (outcome : value) : computes (margin_of outcome).
Proof.
  unfold margin_of.
  repeat first
    [ apply computes_ret
    | apply computes_lift
    | apply computes_bind; [|intros ?]
    | match goal with
      | |- computes (if ?b then _ else _) => destruct b
      end ].
Qed.

Lemma bind_computes {A B} (m : L A) (r : crash + A) (k : A → L B) (s : session) :
  (∀ s0, m s0 = (r, s0)) →
  (m ≫= k) s = match r with inl e => (inl e, s) | inr a => k a s end.
Proof. intros Hm. unfold mbind, L_bind. rewrite Hm. by destruct r. Qed.

Lemma insert_or_replace_match_run {B} (id : string)
    (date city venue team1 team2 toss_winner toss_decision winner result margin : value)
    (k : unit → L B) (s : session) :
  (insert_or_replace_match [VStr id; date; city; venue; team1; team2; toss_winner;
                            toss_decision; winner; result; margin] ≫= k) s
  = match bind_all [VStr id; date; city; venue; team1; team2; toss_winner;
                    toss_decision; winner; result; margin] with
    | inl e => (inl e, s)
    | inr _ =>
      k tt (Session (committed s)
              (Tables (List.filter (λ r, negb (text_column_eq (mr_id r) (Text id)))
                                   (tb_matches (current s))
                       ++ [MatchRecord (Text id) (bound_as date) (bound_as city)
                             (bound_as venue) (bound_as team1) (bound_as team2)
                             (bound_as toss_winner) (bound_as toss_decision)
                             (bound_as winner) (bound_as result) (bound_as margin)])
                      (tb_deliveries (current s)))
              (printed s))
    end.
Proof.
  unfold mbind, L_bind, insert_or_replace_match.
  destruct (bind_all _) as [e|bound] eqn:E; [done|].
  by apply bind_all_bound in E as ->.
Qed.

(** Two normal runs of [parse_match] on a file write the same row of
    [matches] and the same deliveries, ball numbers apart. *)
Lemma parse_match_alongside (filepath : string) (content : crash + value)
    (s s' t t' : session) :
  parse_match filepath content s = (inr tt, t) →
  parse_match filepath content s' = (inr tt, t') →
  let id := fst (splitext (basename filepath)) in
  ∃ row new new',
    mr_id row = Text id ∧
    tb_matches (current t)
    = List.filter (λ r, negb (text_column_eq (mr_id r) (Text id))) (tb_matches (current s))
      ++ [row] ∧
    tb_matches (current t')
    = List.filter (λ r, negb (text_column_eq (mr_id r) (Text id))) (tb_matches (current s'))
      ++ [row] ∧
    tb_deliveries (current t) = tb_deliveries (current s) ++ new ∧
    tb_deliveries (current t') = tb_deliveries (current s') ++ new' ∧
    map without_ball new = map without_ball new'.
Proof.
  unfold parse_match. intros Hs Hs'.
  repeat (rewrite bind_lift in Hs, Hs';
          match type of Hs with
          | context [match ?x with inl _ => _ | inr _ => _ end] =>
            destruct x as [?|?]; [done|]
          end).
  match type of Hs with
  | context [margin_of ?outcome] => destruct (margin_of_computes outcome) as [margin Hmargin]
  end.
  rewrite (bind_computes _ _ _ s Hmargin) in Hs.
  rewrite (bind_computes _ _ _ s' Hmargin) in Hs'.
  destruct margin as [?|margin]; [done|].
  rewrite insert_or_replace_match_run in Hs, Hs'.
  destruct (bind_all _) as [?|?]; [done|].
  match type of Hs with
  | ?rest ?s1 = _ =>
    assert (alongside rest) as Hrest by (walk2; apply load_inning_alongside)
  end.
  destruct (Hrest _ _ _ _ _ _ Hs Hs') as (_ & M & M' & new & new' & D & D' & E).
  simpl in *. eexists _, new, new'. split_and!; [|done|done|done|done|done]. done.
Qed.

Lemma other_matches_nil (ms : list match_record) : other_matches [] ms = ms.
Proof.
  unfold other_matches. simpl. induction ms as [|r ms IH]; simpl; [done|]. by rewrite IH.
Qed.

Lemma other_matches_unfold (ids : list string) (r : match_record) (ms : list match_record) :
  other_matches ids (r :: ms)
  = if existsb (λ id, text_column_eq (mr_id r) (Text id)) ids
    then other_matches ids ms else r :: other_matches ids ms.
Proof. unfold other_matches. cbn [List.filter]. by destruct (existsb _ ids). Qed.

Lemma other_matches_cons (id : string) (ids : list string) (ms : list match_record) :
  other_matches (id :: ids) ms
  = other_matches ids (List.filter (λ r, negb (text_column_eq (mr_id r) (Text id))) ms).
Proof.
  induction ms as [|r ms IH]; [done|].
  rewrite (other_matches_unfold (id :: ids)). cbn [List.filter existsb].
  destruct (text_column_eq (mr_id r) (Text id)); cbn [negb orb]; [done|].
  by rewrite (other_matches_unfold ids), IH.
Qed.

Lemma other_matches_app (ids : list string) (ms ms' : list match_record) :
  other_matches ids (ms ++ ms') = other_matches ids ms ++ other_matches ids ms'.
Proof. apply List.filter_app. Qed.

Lemma other_matches_idemp (ids : list string) (ms : list match_record) :
  other_matches ids (other_matches ids ms) = other_matches ids ms.
Proof.
  induction ms as [|r ms IH]; [done|]. rewrite other_matches_unfold.
  destruct (existsb _ ids) eqn:E; [done|]. by rewrite other_matches_unfold, E, IH.
Qed.

Lemma other_matches_none (id : string) (ids : list string) (ms : list match_record) :
  other_matches ids ms = [] → other_matches (id :: ids) ms = [].
Proof.
  induction ms as [|r ms IH]; [done|]. rewrite !other_matches_unfold. cbn [existsb].
  destruct (existsb _ ids); [|done]. by rewrite orb_true_r.
Qed.

Lemma other_matches_own (id : string) (ids : list string) (row : match_record) :
  mr_id row = Text id → other_matches (id :: ids) [row] = [].
Proof.
  intros Hid. rewrite other_matches_unfold. cbn [existsb].
  unfold text_column_eq at 1. rewrite Hid. simpl. by rewrite String.eqb_refl.
Qed.

Lemma files_alongside (files : list (string * (crash + value))) (s s' t t' : session) :
  let ids := map (λ file, fst (splitext (basename (fst file)))) files in
  for_each (λ file, _ ← print ("Loading: " +:+ fst file); parse_match (fst file) (snd file))
           files s = (inr tt, t) →
  for_each (λ file, _ ← print ("Loading: " +:+ fst file); parse_match (fst file) (snd file))
           files s' = (inr tt, t') →
  ∃ written new new',
    tb_matches (current t) = other_matches ids (tb_matches (current s)) ++ written ∧
    tb_matches (current t') = other_matches ids (tb_matches (current s')) ++ written ∧
    other_matches ids written = [] ∧
    tb_deliveries (current t) = tb_deliveries (current s) ++ new ∧
    tb_deliveries (current t') = tb_deliveries (current s') ++ new' ∧
    map without_ball new = map without_ball new'.
Proof.
  revert s s'. induction files as [|file files IH]; intros s s' ids Hs Hs'.
  - simpl in Hs, Hs'. injection Hs as <-. injection Hs' as <-.
    exists [], [], []. subst ids. simpl. rewrite !other_matches_nil, !app_nil_r. done.
  - rewrite for_each_cons in Hs, Hs'. cbv beta in Hs, Hs'.
    rewrite (file_run file s) in Hs. rewrite (file_run file s') in Hs'.
    destruct (parse_match (fst file) (snd file) (Session _ (current s) _))
      as [[e|[]] s1] eqn:E1; [done|].
    destruct (parse_match (fst file) (snd file) (Session _ (current s') _))
      as [[e|[]] s1'] eqn:E1'; [done|].
    simpl in Hs, Hs'.
    destruct (parse_match_alongside _ _ _ _ _ _ E1 E1')
      as (row & new1 & new1' & Hid & M & M' & D & D' & E).
    destruct (IH s1 s1' Hs Hs') as (written & new2 & new2' & N & N' & O & F & F' & G).
    simpl in M, M', D, D'.
    exists (other_matches (map (λ file, fst (splitext (basename (fst file)))) files) [row]
            ++ written), (new1 ++ new2), (new1' ++ new2').
    subst ids. cbn [map].
    rewrite N, N', M, M', F, F', D, D', !other_matches_cons, !other_matches_app,
      <- !app_assoc, !map_app, E, G.
    split_and!; try done.
    rewrite <- other_matches_cons, other_matches_app, (other_matches_none _ _ _ O), app_nil_r.
    rewrite (other_matches_unfold _ row []).
    destruct (existsb _ _); [done|]. by apply other_matches_own.
Qed.

(** X18: the script is not idempotent.  When it is run a second time over
    the same files and both runs end normally, the [matches] table is after
    the second run what it was after the first, but every delivery of the
    files is stored once more, after those of the first run and equal to
    them but for the ball number. *)
Theorem reload_repeats_the_deliveries
    (f : database_file) (files : list (string * (crash + value))) :
  let first := load_data f files in
  let second := load_data (left_by (snd first)) files in
  fst first = inr tt →
  fst second = inr tt →
  tb_matches (committed (snd second)) = tb_matches (committed (snd first)) ∧
  ∃ new new',
    tb_deliveries (committed (snd first)) = default [] (f_deliveries f) ++ new ∧
    tb_deliveries (committed (snd second)) = tb_deliveries (committed (snd first)) ++ new' ∧
    map without_ball new' = map without_ball new.
Proof.
  intros first second. subst first second. unfold load_data. rewrite !load_all_run. cbv zeta.
  destruct (for_each _ files (connect f)) as [[e|[]] t] eqn:E1; [done|]. intros _.
  cbn [fst snd committed].
  destruct (for_each _ files (connect (left_by _))) as [[e|[]] t'] eqn:E2; [done|]. intros _.
  cbn [fst snd committed].
  destruct (files_alongside files _ _ _ _ E1 E2)
    as (written & new & new' & M & M' & O & D & D' & E).
  simpl in M, M', D, D'. split.
  - rewrite M', M, other_matches_app, other_matches_idemp, O, app_nil_r. done.
  - exists new, new'. by rewrite D', D.
Qed.

End Loading.

(** * The properties on the sample data *)

#[local] Existing Instance Sample.rationals.
#[local] Existing Instance Sample.latin.

Lemma call_is_call (rid : value) (name : string) (arguments : value) :
  is_call (Sample.call rid name arguments) rid (VStr name) arguments.
Proof. by eexists _, _. Qed.

Lemma call_items_but_id (rid1 rid2 : value) (name : string) (arguments : value) (key : string) :
  key ≠ "id" →
  assoc (Sample.call_items rid1 name arguments) key
  = assoc (Sample.call_items rid2 name arguments) key.
Proof.
  intros Hkey. unfold Sample.call_items. cbn [assoc].
  destruct (String.eqb_spec "jsonrpc" key); [done|].
  by destruct (String.eqb_spec "id" key).
Qed.

Lemma registered (name : string) :
  name ∈ map t_name get_tools → is_Some (handlers !! name).
Proof. apply handlers_tools. Qed.

(** C1, counterexample: [get_team_info] declares [team_name] only, and a
    call with the argument [foo] is answered with the list of teams. *)
Lemma undeclared_argument_accepted :
  declared Sample.team_info_tool "foo" = false ∧
  fst (handle_request (Sample.call (VInt 1) "get_team_info" (VDict [("foo", VStr "bar")]))
                      (boot Sample.db))
  = Return (Success (VInt 1) (TextContent (VDict [
      ("teams", VList [VDict [("id", VInt 1); ("name", VStr "Kolkata Knight Riders");
                              ("short_name", VStr "KKR"); ("wins", VInt 1);
                              ("total_matches", VInt 1)]]);
      ("total_teams", VInt 1)]))).
Proof. split; reflexivity. Qed.

(** C1 on that call. *)
Lemma undeclared_arguments_are_ignored_witness :
  let request := Sample.call (VInt 1) "get_team_info" (VDict [("foo", VStr "bar")]) in
  Sample.team_info_tool ∈ get_tools ∧
  is_call request (VInt 1) (VStr "get_team_info") (VDict [("foo", VStr "bar")]) ∧
  ∃ handler,
    handlers !! "get_team_info" = Some handler ∧
    handle_request request (boot Sample.db)
    = envelope (VInt 1) (handler (VDict [("foo", VStr "bar")]) (boot Sample.db)) ∧
    handler (VDict [("foo", VStr "bar")]) (boot Sample.db)
    = handler (VDict (declared_only Sample.team_info_tool [("foo", VStr "bar")])) (boot Sample.db) ∧
    error_code (fst (handle_request request (boot Sample.db))) ≠ Some (-32602).
Proof.
  intros request.
  assert (Sample.team_info_tool ∈ get_tools) as Ht by (apply elem_of_cons; by left).
  split_and!; [done|apply call_is_call|].
  apply (undeclared_arguments_are_ignored request (VInt 1) Sample.team_info_tool
           [("foo", VStr "bar")] (boot Sample.db) Ht (call_is_call _ _ _)).
Defined.

(** C2, counterexample: [get_ball_by_ball] without its required [match_id]
    is answered with a success envelope, over no deliveries. *)
Lemma missing_match_id_accepted :
  t_required Sample.ball_by_ball_tool = Some ["match_id"] ∧
  fst (handle_request (Sample.call (VInt 2) "get_ball_by_ball" (VDict [])) (boot Sample.db))
  = Return (Success (VInt 2) (TextContent (VDict [
      ("match_info", VNone);
      ("deliveries", VList []);
      ("total_deliveries", VInt 0);
      ("overs_covered", VInt 0)]))).
Proof. split; reflexivity. Qed.

(** C2 on that call. *)
Lemma missing_required_argument_reads_None_witness :
  let request := Sample.call (VInt 2) "get_ball_by_ball" (VDict []) in
  Sample.ball_by_ball_tool ∈ get_tools ∧
  t_required Sample.ball_by_ball_tool = Some ["match_id"] ∧
  "match_id" ∈ ["match_id"] ∧
  assoc [] "match_id" = None ∧
  is_call request (VInt 2) (VStr "get_ball_by_ball") (VDict []) ∧
  ∃ handler,
    handlers !! "get_ball_by_ball" = Some handler ∧
    handle_request request (boot Sample.db)
    = envelope (VInt 2) (handler (VDict []) (boot Sample.db)) ∧
    handler (VDict []) (boot Sample.db)
    = handler (VDict ([] ++ [("match_id", VNone)])) (boot Sample.db) ∧
    error_code (fst (handle_request request (boot Sample.db))) ≠ Some (-32602).
Proof.
  intros request.
  assert (Sample.ball_by_ball_tool ∈ get_tools) as Ht by (do 3 (apply elem_of_cons; right); by left).
  assert ("match_id" ∈ ["match_id"]) as Hk by (by apply list_elem_of_singleton).
  split_and!; [done|done|done|done|apply call_is_call|].
  apply (missing_required_argument_reads_None request (VInt 2) Sample.ball_by_ball_tool
           ["match_id"] "match_id" [] (boot Sample.db) Ht eq_refl Hk eq_refl
           (call_is_call _ _ _)).
Defined.

(** C3, counterexample: over the database [load_data.py] creates, the
    statement over [deliveries] raises [sqlite3.OperationalError]; the call
    is answered all the same with a success envelope that carries the match
    and no delivery, and the fault goes to stderr. *)
Lemma store_fault_answered_with_success :
  let request := Sample.call (VInt 3) "get_ball_by_ball" (VDict [("match_id", VStr "335982")]) in
  let run := handle_request request (boot Sample.loaded_db) in
  sqlite3_execute Sample.loaded_db (Sql Deliveries ["d.match_id = ?"]) [VStr "335982"]
  = Fault (Exn Sqlite3Error "no such column: d.innings") ∧
  fst run
  = Return (Success (VInt 3) (TextContent (VDict [
      ("match_info", VDict [
         ("id", VStr "335982");
         ("team1", VStr "Kolkata Knight Riders");
         ("team2", VStr "Royal Challengers Bangalore");
         ("date", VStr "2008-04-18"); ("city", VStr "Bangalore");
         ("venue", VStr "M Chinnaswamy Stadium");
         ("toss_winner", VStr "Royal Challengers Bangalore"); ("toss_decision", VStr "field");
         ("winner", VStr "Kolkata Knight Riders"); ("result", VStr "normal");
         ("margin", VStr "140 runs")]);
      ("deliveries", VList []);
      ("total_deliveries", VInt 0);
      ("overs_covered", VInt 0)]))) ∧
  w_stderr (snd run) = ["Database error: no such column: d.innings"].
Proof. split_and!; reflexivity. Qed.

(** C3 on that call: the answer is the one over the quiet engine. *)
Lemma sqlite_fault_counts_as_no_rows_witness :
  let request := Sample.call (VInt 3) "get_ball_by_ball" (VDict [("match_id", VStr "335982")]) in
  let w := boot Sample.loaded_db in
  is_call request (VInt 3) (VStr "get_ball_by_ball") (VDict [("match_id", VStr "335982")]) ∧
  is_Some (handlers !! "get_ball_by_ball") ∧
  fst (handle_request request w)
  = fst (handle_request request (World (quiet (w_engine w)) (w_stderr w) (w_stdout w))).
Proof.
  intros request w.
  assert (is_Some (handlers !! "get_ball_by_ball")) as Hh
    by (apply registered; do 3 (apply elem_of_cons; right); apply elem_of_cons; by left).
  split_and!; [apply call_is_call|done|].
  apply (sqlite_fault_counts_as_no_rows request (VInt 3) "get_ball_by_ball"
           [("match_id", VStr "335982")] w (call_is_call _ _ _) Hh).
Defined.

(** C4, counterexample: no delivery of the sample has a batter or a bowler
    whose name holds a lone surrogate, nor the [match_id] 2^63, yet a call
    with such a [player_name], and a call with such a [match_id], are
    answered with a failure envelope: the parameter cannot be bound. *)
Lemma empty_selection_without_success :
  let surrogate := Sample.call (VInt 4) "get_player_performance"
                     (VDict [("player_name", VStr Sample.lone_surrogate)]) in
  let large := Sample.call (VInt 4) "get_player_performance"
                 (VDict [("player_name", VStr "Tendulkar"); ("match_id", VInt (2 ^ 63))]) in
  deliveries_of d_batter (VStr Sample.lone_surrogate) VNone Sample.deliveries = [] ∧
  deliveries_of d_bowler (VStr Sample.lone_surrogate) VNone Sample.deliveries = [] ∧
  fst (handle_request surrogate (boot Sample.db))
  = Return (Failure (VInt 4) (-32603)
              ("Internal error: 'utf-8' codec can't encode character '\ud800' "
               +:+ "in position 1: surrogates not allowed")) ∧
  deliveries_of d_batter (VStr "Tendulkar") (VInt (2 ^ 63)) Sample.deliveries = [] ∧
  deliveries_of d_bowler (VStr "Tendulkar") (VInt (2 ^ 63)) Sample.deliveries = [] ∧
  fst (handle_request large (boot Sample.db))
  = Return (Failure (VInt 4) (-32603)
              "Internal error: Python int too large to convert to SQLite INTEGER").
Proof. split_and!; reflexivity. Qed.


(** C5 on arguments that are a list: [arguments.get] raises [AttributeError],
    the answer has code -32603, and [main] goes on to the next line. *)
Lemma handler_failure_is_internal_error_witness :
  let request := Sample.call (VInt 5) "get_team_info" (VList []) in
  let e := Exn AttributeError "'list' object has no attribute 'get'" in
  let failure := Failure (VInt 5) (-32603) "Internal error: 'list' object has no attribute 'get'" in
  is_call request (VInt 5) (VStr "get_team_info") (VList []) ∧
  handlers !! "get_team_info" = Some handle_get_team_info ∧
  handle_get_team_info (VList []) (boot Sample.db) = (Raise e, boot Sample.db) ∧
  handle_request request (boot Sample.db) = (Return failure, boot Sample.db) ∧
  main [Json request; NotJson] (boot Sample.db)
  = main [NotJson] (World (sqlite3_execute Sample.db) [] [failure]).
Proof.
  intros request e failure.
  assert (handlers !! "get_team_info" = Some handle_get_team_info) as Hh
    by (apply handlers_lookup; apply elem_of_cons; by left).
  split_and!; [apply call_is_call|done|done|..];
    apply (handler_failure_is_internal_error request (VInt 5) (VList []) "get_team_info"
             handle_get_team_info e (boot Sample.db) (boot Sample.db) [NotJson]
             (call_is_call _ _ _) Hh eq_refl).
Defined.

(** C6, counterexample: a call whose [name] is a list names none of the
    seven tools, and is answered by [main] with the failure envelope of code
    -32603 under the id [None], the dispatcher having raised [TypeError]. *)
Lemma unhashable_tool_name_is_internal_error :
  let request := VDict [("jsonrpc", VStr "2.0"); ("id", VInt 6); ("method", VStr "tools/call");
                        ("params", VDict [("name", VList []); ("arguments", VDict [])])] in
  is_call request (VInt 6) (VList []) (VDict []) ∧
  (∀ t, t ∈ get_tools → VList [] ≠ VStr (t_name t)) ∧
  handle_request request (boot Sample.db)
  = (Raise (Exn TypeError "unhashable type: 'list'"), boot Sample.db) ∧
  w_stdout (snd (main [Json request] (boot Sample.db)))
  = [Failure VNone (-32603) "Internal error: unhashable type: 'list'"].
Proof. split_and!; [by eexists _, _|done|reflexivity|reflexivity]. Qed.


(** C8, counterexample: of a ball bowled again the two deliveries come back
    one after the other at the same innings, over and ball, so that the
    sequence is not strictly ascending. *)
Lemma same_position_not_strictly_ordered :
  let request := Sample.call (VInt 8) "get_ball_by_ball" (VDict [("match_id", VStr "335982")]) in
  ∃ balls result,
    fst (handle_request request (boot Sample.replayed_db))
    = Return (Success (VInt 8) (TextContent result)) ∧
    field result "deliveries" = Some (VList (map VDict (map ball_row balls))) ∧
    map (λ b, ball_key (fst b)) balls = [(1, 0, 1); (1, 0, 1)] ∧
    ¬ Sorted ball_before balls.
Proof.
  intros request.
  set (m := Match "335982" "Kolkata Knight Riders" "Royal Challengers Bangalore"
              [("season", VInt 2008)]).
  exists [(Sample.ball 2 "335982" 1 0 1 "SC Ganguly" "P Kumar" 4 None, m);
          (Sample.ball 1 "335982" 1 0 1 "SC Ganguly" "P Kumar" 0 None, m)].
  eexists. split_and!; [reflexivity|reflexivity|reflexivity|].
  intros Hsorted. inversion Hsorted as [|? ? _ Hhd]. inversion Hhd as [|? ? Hlt].
  unfold ball_before, key_lt in Hlt. simpl in Hlt. lia.
Qed.


(** C9 on the same call sent under the ids [1] and ["b"]. *)
Lemma dispatch_twice_same_answer_witness :
  let arguments := VDict [("match_id", VStr "335982")] in
  let items1 := Sample.call_items (VInt 1) "get_ball_by_ball" arguments in
  let items2 := Sample.call_items (VStr "b") "get_ball_by_ball" arguments in
  let run1 := handle_request (VDict items1) (boot Sample.db) in
  let run2 := handle_request (VDict items2) (snd run1) in
  (∀ key, key ≠ "id" → assoc items1 key = assoc items2 key) ∧
  answer (fst run1) = answer (fst run2) ∧
  w_engine (snd run1) = sqlite3_execute Sample.db ∧
  w_engine (snd run2) = sqlite3_execute Sample.db.
Proof.
  intros arguments items1 items2 run1 run2.
  split; [apply call_items_but_id|].
  apply (dispatch_twice_same_answer items1 items2 (boot Sample.db)
           (call_items_but_id _ _ _ _)).
Defined.

(** ** The model run on the sample *)

Example like_ignores_case : like "%kohli%" "V Kohli" = true ∧ like "%None%" "V Kohli" = false.
Proof. split; reflexivity. Qed.

Example repr_of_a_list : py_str (VList [VInt (-3); VStr "x"; VNone; VBool true]) = "[-3, 'x', None, True]".
Proof. reflexivity. Qed.

(** A no-break space (U+00A0, the bytes 194 and 160) is not printable, and
    [repr] writes it as an escape. *)
Example repr_of_a_no_break_space :
  py_str (VList [VStr (String (ascii_of_nat 194) (String (ascii_of_nat 160) ""))])
  = "['\xa0']".
Proof. reflexivity. Qed.

(** A lone surrogate (U+D800, the bytes 237, 160 and 128) cannot be bound. *)
Example lone_surrogate_is_not_bound :
  bind_parameter 1 (VStr ("a" +:+ Sample.lone_surrogate))
  = inl (Exn UnicodeEncodeError
           "'utf-8' codec can't encode character '\ud800' in position 1: surrogates not allowed").
Proof. reflexivity. Qed.

(** [SUM] raises when a partial sum leaves 64 bits, whatever the total. *)
Example sum_overflows :
  sql_sum [2 ^ 62; 2 ^ 62; - 2 ^ 62] = inl "integer overflow" ∧
  sql_sum [2 ^ 62; - 2 ^ 62; 2 ^ 62] = inr (Some (2 ^ 62)).
Proof. split; reflexivity. Qed.

(** [_] stands for one character, of one byte or of several. *)
Example like_counts_characters :
  like "_x" (String (ascii_of_nat 195) (String (ascii_of_nat 169) "x")) = true.
Proof. reflexivity. Qed.

(** The balls of match 335982 come back by innings, over and ball, whatever
    the order they are stored in. *)
Example sample_deliveries_in_order :
  match sqlite3_execute Sample.db (Sql Deliveries ["d.match_id = ?"]) [VStr "335982"] with
  | Rows rows => map (λ r, assoc r "id") rows
  | Fault _ => []
  end
  = [Some (VInt 1); Some (VInt 2); Some (VInt 3); Some (VInt 4)].
Proof. reflexivity. Qed.

Example sample_overs_covered :
  ∃ result,
    fst (handle_get_ball_by_ball (VDict [("match_id", VStr "335982")]) (boot Sample.db))
    = Return result ∧
    field result "total_deliveries" = Some (VInt 4) ∧
    field result "overs_covered" = Some (VInt 3).
Proof. by eexists. Qed.

(** One six off one ball: a strike rate of 600, and no ball bowled. *)
Example sample_performance :
  fst (handle_get_player_performance (VDict [("player_name", VStr "kohli")]) (boot Sample.db))
  = Return (VDict [
      ("player_name", VStr "kohli");
      ("match_id", VNone);
      ("stat_type", VStr "all");
      ("performance", VDict [
         ("batting", VDict [("balls_faced", VInt 1); ("runs_scored", VInt 6);
                            ("fours", VInt 0); ("sixes", VInt 1); ("boundaries", VInt 1);
                            ("strike_rate", VFloat (60000 # 100)%Q); ("matches_played", VInt 1)]);
         ("bowling", VDict [("balls_bowled", VInt 0); ("runs_conceded", VNone);
                            ("wickets", VInt 0); ("economy_rate", VNone);
                            ("matches_bowled", VInt 0)])])]).
Proof. reflexivity. Qed.

(** ** The further properties on the sample *)

(** X1 on a request with the method [ping]. *)
Lemma unknown_method_is_not_found_witness :
  let items := [("jsonrpc", VStr "2.0"); ("id", VInt 7); ("method", VStr "ping")] in
  (∀ m, m ∈ methods → default VNone (assoc items "method") ≠ VStr m) ∧
  handle_request (VDict items) (boot Sample.db)
  = (Return (Failure (VInt 7) (-32601) "Unknown method: ping"), boot Sample.db).
Proof.
  intros items.
  assert (∀ m, m ∈ methods → default VNone (assoc items "method") ≠ VStr m) as Hm.
  { intros m Hin. unfold methods in Hin. set_unfold. destruct_or!; by subst. }
  split; [done|].
  exact (proj2 (unknown_method_is_not_found items (boot Sample.db)) Hm).
Defined.

(** X2 on a call of [get_team_info] with the [id] 1. *)
Lemma response_echoes_id_witness :
  ∃ r w',
    handle_request (Sample.call (VInt 1) "get_team_info" (VDict [])) (boot Sample.db)
    = (Return r, w') ∧
    response_id r = VInt 1.
Proof.
  eexists _, _. split; [reflexivity|].
  eapply (response_echoes_id (Sample.call_items (VInt 1) "get_team_info" (VDict []))
            (boot Sample.db)).
  reflexivity.
Defined.

(** X4 on a request that is a list. *)
Lemma unreadable_request_answered_without_id_witness :
  readable (VList [VInt 1]) = false ∧
  ∃ e,
    handle_request (VList [VInt 1]) (boot Sample.db) = (Raise e, boot Sample.db) ∧
    (exn_kind e = AttributeError ∨ exn_kind e = TypeError) ∧
    main [Json (VList [VInt 1])] (boot Sample.db)
    = main [] (World (w_engine (boot Sample.db)) (w_stderr (boot Sample.db))
                     (w_stdout (boot Sample.db)
                      ++ [Failure VNone (-32603) ("Internal error: " +:+ exn_str e)])).
Proof.
  split; [reflexivity|].
  exact (unreadable_request_answered_without_id (VList [VInt 1]) (boot Sample.db) [] eq_refl).
Defined.

(** X12 on a call of a tool that does not exist. *)
Lemma failures_are_not_found_or_internal_witness :
  let request := Sample.call (VInt 1) "get_weather" (VDict []) in
  error_code (fst (handle_request request (boot Sample.db))) = Some (-32601) ∧
  (-32601 = -32601 ∨
   (-32601 = -32603 ∧
    ∃ items, request = VDict items ∧ assoc items "method" = Some (VStr "tools/call"))).
Proof.
  intros request. split; [reflexivity|].
  exact (failures_are_not_found_or_internal request (boot Sample.db) (-32601) eq_refl).
Defined.

(** X7 on a call of [get_team_info]. *)
Lemma not_found_iff_not_listed_witness :
  let request := Sample.call (VInt 1) "get_team_info" (VDict []) in
  is_call request (VInt 1) (VStr "get_team_info") (VDict []) ∧
  hashable (VStr "get_team_info") = true ∧
  (error_code (fst (handle_request request (boot Sample.db))) = Some (-32601)
   ↔ ∀ t, t ∈ get_tools → VStr "get_team_info" ≠ VStr (t_name t)).
Proof.
  intros request. split_and!; [apply call_is_call|done|].
  exact (not_found_iff_not_listed request (VInt 1) (VStr "get_team_info") (VDict [])
           (boot Sample.db) (call_is_call _ _ _) eq_refl).
Defined.

(** X8 on [get_team_info] with an empty [team_name]. *)
Lemma falsy_filter_is_no_filter_witness :
  ("get_team_info", "team_name") ∈ optional_filters ∧
  handlers !! "get_team_info" = Some handle_get_team_info ∧
  assoc [] "team_name" = None ∧
  truthy (VStr "") = false ∧
  handle_get_team_info (VDict ([] ++ [("team_name", VStr "")])) (boot Sample.db)
  = handle_get_team_info (VDict []) (boot Sample.db).
Proof.
  assert (("get_team_info", "team_name") ∈ optional_filters) as Hin
    by (apply elem_of_cons; by left).
  assert (handlers !! "get_team_info" = Some handle_get_team_info) as Hh
    by (apply handlers_lookup, elem_of_cons; by left).
  split_and!; [done|done|done|done|].
  exact (falsy_filter_is_no_filter "get_team_info" "team_name" handle_get_team_info []
           (VStr "") (boot Sample.db) Hin Hh eq_refl eq_refl).
Defined.



(** X11 on the sample database, against an engine that answers no rows to
    every statement given the wrong number of parameters. *)
Lemma statements_carry_their_parameters_witness :
  let request := Sample.call (VInt 1) "get_match_details" (VDict [("team_name", VStr "Kings")]) in
  let w := boot Sample.db in
  let engine' query params :=
    if bool_decide (length params = placeholders query)
    then sqlite3_execute Sample.db query params else Rows [] in
  counted (w_engine w) engine' ∧
  fst (handle_request request (rebased engine' w)) = fst (handle_request request w) ∧
  snd (handle_request request (rebased engine' w))
  = rebased engine' (snd (handle_request request w)).
Proof.
  intros request w engine'.
  assert (counted (w_engine w) engine') as Hc.
  { intros query params Hn. unfold engine'. by rewrite bool_decide_eq_true_2. }
  split; [done|].
  exact (statements_carry_their_parameters request w engine' Hc).
Defined.

(** ** The loader on the sample files *)

(** The table the script makes of the sample file, from no database. *)
Example sample_load :
  let run := load_data Files.no_database [("data/335982.json", inr Files.scorecard)] in
  fst run = inr tt ∧
  map (λ r, (dr_inning r, dr_over r, dr_ball r, dr_batsman r, dr_dismissal_kind r))
      (tb_deliveries (committed (snd run)))
  = [(Integer 1, Integer 0, Integer 1, Text "SC Ganguly", Text "");
     (Integer 1, Integer 0, Integer 2, Text "BB McCullum", Text "");
     (Integer 1, Integer 0, Integer 3, Text "BB McCullum", Text "");
     (Integer 1, Integer 1, Integer 1, Text "SC Ganguly", Text "caught")] ∧
  map (λ r, (mr_id r, mr_winner r, mr_margin r)) (tb_matches (committed (snd run)))
  = [(Text "335982", Text "Kolkata Knight Riders", Text "140 runs")].
Proof. split_and!; reflexivity. Qed.

(** X14 on the sample file, from no database. *)
Lemma balls_are_numbered_in_file_order_witness :
  let f := Files.no_database in
  let files := [("data/335982.json", inr Files.scorecard)] in
  numbered (default [] (f_deliveries f)) ∧
  let ds := tb_deliveries (committed (snd (load_data f files))) in
  numbered ds ∧
  (∃ new, ds = default [] (f_deliveries f) ++ new) ∧
  ∀ i j r r' match_id inning over,
    (i < j)%nat →
    ds !! i = Some r →
    ds !! j = Some r' →
    dr_match_id r = Text match_id → dr_inning r = Integer inning → dr_over r = Integer over →
    dr_match_id r' = Text match_id → dr_inning r' = Integer inning → dr_over r' = Integer over →
    ∃ b b', dr_ball r = Integer b ∧ dr_ball r' = Integer b' ∧ 0 < b ∧ b < b'.
Proof.
  intros f files.
  assert (numbered (default [] (f_deliveries f))) as Hf by (by intros i r Hi).
  split; [done|].
  exact (balls_are_numbered_in_file_order f files Hf).
Defined.

(** X15 on the sample file, from no database. *)
Lemma each_file_has_one_match_row_witness :
  let f := Files.no_database in
  let files := [("data/335982.json", inr Files.scorecard)] in
  unique_ids (default [] (f_matches f)) ∧
  fst (load_data f files) = inr tt ∧
  let ms := tb_matches (committed (snd (load_data f files))) in
  unique_ids ms ∧
  ∀ file, file ∈ files → fst (splitext (basename (fst file))) ∈ match_ids ms.
Proof.
  intros f files.
  assert (unique_ids (default [] (f_matches f))) as Hf by apply NoDup_nil_2.
  split_and!; [done|reflexivity|].
  exact (each_file_has_one_match_row f files Hf eq_refl).
Defined.

(** X16 on the sample match in the layout of Cricsheet. *)
Lemma cricsheet_layout_is_refused_witness :
  let f := Files.no_database in
  let files := [("data/335982.json", inr Files.cricsheet)] in
  ("data/335982.json", inr Files.cricsheet) ∈ files ∧
  cricsheet_layout Files.cricsheet ∧
  ∃ e,
    fst (load_data f files) = inl e ∧
    committed (snd (load_data f files)) = create_tables f.
Proof.
  intros f files.
  assert (("data/335982.json", inr Files.cricsheet) ∈ files) as Hin
    by (apply elem_of_cons; by left).
  assert (cricsheet_layout Files.cricsheet) as Hlayout
    by (eexists _, _, _, _, _; split_and!; [reflexivity|reflexivity|done]).
  split_and!; [done|done|].
  exact (cricsheet_layout_is_refused f files "data/335982.json" Files.cricsheet Hin Hlayout).
Defined.

(** X17 on [data/335982.json]. *)
Lemma match_id_is_the_file_name_witness :
  "335982" = String "3" "35982" ∧
  "3"%char ≠ "."%char ∧
  rfind "/" "335982" = None ∧
  fst (splitext (basename ("data" +:+ "/" +:+ "335982" +:+ ".json"))) = "335982".
Proof.
  assert ("3"%char ≠ "."%char) as Hc by done.
  split_and!; [done|done|done|].
  exact (match_id_is_the_file_name "data" "335982" "3" "35982" eq_refl Hc eq_refl).
Defined.

(** X18 on the sample file, loaded twice from no database. *)
Lemma reload_repeats_the_deliveries_witness :
  let f := Files.no_database in
  let files := [("data/335982.json", inr Files.scorecard)] in
  let first := load_data f files in
  let second := load_data (left_by (snd first)) files in
  fst first = inr tt ∧
  fst second = inr tt ∧
  tb_matches (committed (snd second)) = tb_matches (committed (snd first)) ∧
  ∃ new new',
    tb_deliveries (committed (snd first)) = default [] (f_deliveries f) ++ new ∧
    tb_deliveries (committed (snd second)) = tb_deliveries (committed (snd first)) ++ new' ∧
    map without_ball new' = map without_ball new.
Proof.
  intros f files first second.
  split; [reflexivity|]. split; [reflexivity|].
  exact (reload_repeats_the_deliveries f files eq_refl eq_refl).
Defined.

(** The ball numbers of the sample file loaded twice: those of the second
    load go on after those of the first. *)
Example sample_reload :
  let files := [("data/335982.json", inr Files.scorecard)] in
  let first := load_data Files.no_database files in
  let second := load_data (left_by (snd first)) files in
  map (λ r, (dr_over r, dr_ball r)) (tb_deliveries (committed (snd second)))
  = [(Integer 0, Integer 1); (Integer 0, Integer 2); (Integer 0, Integer 3);
     (Integer 1, Integer 1);
     (Integer 0, Integer 4); (Integer 0, Integer 5); (Integer 0, Integer 6);
     (Integer 1, Integer 2)] ∧
  length (tb_matches (committed (snd second))) = 1%nat.
Proof. split; reflexivity. Qed.
